(** * Portable chatbot: the mock chat API and its wire protocol

    A shallow embedding of the two implementations of the chat endpoint:

    - [Interception]: [mock-api.js], the replacement of [window.fetch] that
      answers calls to the chat endpoint inside the browser;
    - [Listener]: [backend-example.js], the Express route [POST /api/chat]
      with its upload filter and its error-handling middleware.

    JavaScript strings are modelled as byte strings (the UTF-8 encoding of
    the text).  The separator of [split], the keywords of the selectors and
    the characters escaped by [JSON.stringify] are all ASCII, so they act
    on the bytes as they act on the code units.  [toLowerCase] is modelled
    on the letters A-Z (so the Kelvin sign, whose lower case is the letter
    k, is left as it is).  JSON numbers are modelled as integers.  Timers,
    delays and log lines are not modelled: a response is the sequence of
    chunks written, in the order they are written. *)

From Stdlib Require Import String Ascii List Bool Arith NArith ZArith QArith Qround Lia.
From Stdlib Require Import DecimalString.
Import ListNotations.

Local Close Scope Q_scope.
Local Open Scope list_scope.
Local Open Scope string_scope.

(** ** JavaScript strings *)

Module JS.

(** The two characters that a string literal of this file cannot hold. *)
Definition nl : string := String (ascii_of_nat 10) "".
Definition dq : string := String (ascii_of_nat 34) "".

Definition is_upper (c : ascii) : bool :=
  (65 <=? nat_of_ascii c)%nat && (nat_of_ascii c <=? 90)%nat.

Definition lower_char (c : ascii) : ascii :=
  if is_upper c then ascii_of_nat (nat_of_ascii c + 32) else c.

(** [s.toLowerCase()] *)
Fixpoint toLowerCase (s : string) : string :=
  match s with
  | EmptyString => EmptyString
  | String c s' => String (lower_char c) (toLowerCase s')
  end.

(** [s.startsWith(t)] *)
Definition startsWith (s t : string) : bool := String.prefix t s.

(** [s.includes(t)]: [t] is a prefix of some suffix of [s]. *)
Fixpoint includes (s t : string) : bool :=
  startsWith s t ||
  match s with
  | EmptyString => false
  | String _ s' => includes s' t
  end.

(** [s.endsWith(t)]: some suffix of [s] is [t]. *)
Fixpoint endsWith (s t : string) : bool :=
  String.eqb s t ||
  match s with
  | EmptyString => false
  | String _ s' => endsWith s' t
  end.

(** [s.split(sep)] for a one-character separator: the pieces between the
    occurrences of [sep], empty pieces kept; never the empty list. *)
Fixpoint split (sep : ascii) (s : string) : list string :=
  match s with
  | EmptyString => [EmptyString]
  | String c s' =>
      if Ascii.eqb c sep then EmptyString :: split sep s'
      else match split sep s' with
           | w :: ws => String c w :: ws
           | [] => [String c EmptyString]
           end
  end.

(** [a.join(sep)] on an array of strings. *)
Fixpoint join (sep : string) (l : list string) : string :=
  match l with
  | [] => EmptyString
  | [w] => w
  | w :: ws => w ++ sep ++ join sep ws
  end.

(** [String(n)] for a non-negative integer, as a template literal prints it. *)
Definition string_of_nat (n : nat) : string :=
  NilZero.string_of_uint (Nat.to_uint n).



(** *** JSON values, as [JSON.parse] returns them.  The value [undefined]
    is [None] at type [option value]. *)

#[warnings="-register-all"]
Inductive value : Type :=
  | JNull
  | JBool (b : bool)
  | JNum (n : Z)
  | JStr (s : string)
  | JArr (items : list value)
  | JObj (props : list (string * value)).

(** Truthiness of a value, as [if (v)], [v || d] and [v ? a : b] test it. *)
Definition truthy (v : option value) : bool :=
  match v with
  | None => false
  | Some JNull => false
  | Some (JBool b) => b
  | Some (JNum n) => negb (Z.eqb n 0)
  | Some (JStr s) => negb (String.eqb s "")
  | Some (JArr _) => true
  | Some (JObj _) => true
  end.

(** The first binding of a key among the properties of an object. *)
Fixpoint assoc {A : Type} (k : string) (l : list (string * A)) : option A :=
  match l with
  | [] => None
  | (k', v) :: l' => if String.eqb k k' then Some v else assoc k l'
  end.

(** Errors.  The text of a [TypeError] is the engine's, so the model records
    what was attempted instead. *)
Inductive fault : Type :=
  | ReadOfNull (prop : string)
  | ReadOfUndefined (prop : string)
  | NotAFunction (method : string).

Inductive js_error : Type :=
  | SyntaxError (message : string)
  | TypeError (f : fault)
  | Error (message : string)
  | MulterError (code : string) (message : string).

Inductive result (A : Type) : Type :=
  | Ok (a : A)
  | Throw (e : js_error).
Arguments Ok {A} a.
Arguments Throw {A} e.

Definition bind {A B : Type} (m : result A) (k : A -> result B) : result B :=
  match m with
  | Ok a => k a
  | Throw e => Throw e
  end.

(** [v.k] for one of the names [messages], [stream], [content]: a
    [TypeError] on [null] and [undefined], the property of an object,
    [undefined] on the other values (none of them has such a property). *)
Definition get_prop (v : option value) (k : string) : result (option value) :=
  match v with
  | None => Throw (TypeError (ReadOfUndefined k))
  | Some JNull => Throw (TypeError (ReadOfNull k))
  | Some (JObj props) => Ok (assoc k props)
  | Some _ => Ok None
  end.

Definition string_of_Z (n : Z) : string :=
  NilZero.string_of_int (Z.to_int n).

Fixpoint last_char (s : string) : string :=
  match s with
  | EmptyString => EmptyString
  | String c EmptyString => String c EmptyString
  | String _ s' => last_char s'
  end.

(** [m[m.length - 1]].  For an array the last element, for a string its
    last character, for a number or a boolean [undefined] (no [length], and
    no property [NaN]).  For an object the property named by
    [length - 1]: [NaN] when there is no [length], [n - 1] when it is a
    number, [-1] for [null] and [false], [0] for [true]; a [length] that is
    a string, an array or an object is read as [NaN]. *)
Definition js_last (m : value) : option value :=
  match m with
  | JArr items => List.last (map Some items) None
  | JStr s => if String.eqb s "" then None else Some (JStr (last_char s))
  | JObj props =>
      let key :=
        match assoc "length" props with
        | Some (JNum n) => string_of_Z (n - 1)
        | Some JNull | Some (JBool false) => "-1"
        | Some (JBool true) => "0"
        | _ => "NaN"
        end in
      assoc key props
  | _ => None
  end.

(** *** [JSON.stringify] *)

Definition bs : string := String (ascii_of_nat 92) "".

Definition hex_digit (n : nat) : ascii :=
  if (n <? 10)%nat then ascii_of_nat (48 + n) else ascii_of_nat (87 + n).

(** The escape of one character inside a JSON string. *)
Definition escape_char (c : ascii) : string :=
  let n := nat_of_ascii c in
  if (n =? 34)%nat then bs ++ dq
  else if (n =? 92)%nat then bs ++ bs
  else if (n =? 8)%nat then bs ++ "b"
  else if (n =? 12)%nat then bs ++ "f"
  else if (n =? 10)%nat then bs ++ "n"
  else if (n =? 13)%nat then bs ++ "r"
  else if (n =? 9)%nat then bs ++ "t"
  else if (n <? 32)%nat then
    bs ++ "u00" ++ String (hex_digit (n / 16)) (String (hex_digit (n mod 16)) "")
  else String c "".

Fixpoint escape (s : string) : string :=
  match s with
  | EmptyString => EmptyString
  | String c s' => escape_char c ++ escape s'
  end.

Definition quote (s : string) : string := dq ++ escape s ++ dq.

Fixpoint JSON_stringify (v : value) : string :=
  match v with
  | JNull => "null"
  | JBool true => "true"
  | JBool false => "false"
  | JNum n => string_of_Z n
  | JStr s => quote s
  | JArr items => "[" ++ join "," (map JSON_stringify items) ++ "]"
  | JObj props =>
      "{" ++ join "," (map (fun kv : string * value => let (k, x) := kv in
                                      quote k ++ ":" ++ JSON_stringify x) props)
          ++ "}"
  end.

End JS.

(** ** Responses *)

Module Http.

(** The body of a response: a text given at once, or the chunks written to
    a stream that is then closed. *)
Inductive body : Type :=
  | Text (s : string)
  | Stream (chunks : list string).

Record response : Type := mkResponse
  { status : nat;
    headers : list (string * string);
    payload : body }.

End Http.

Import JS Http.

(** ** The random source

    [Math.random()] returns a double of the interval [0, 1).  A draw is
    such a double, given by its significand and its scale; the product with
    the length of an array is rounded as the product of two doubles is, to
    53 significant bits, ties to the even one, and then floored. *)

Module Random.

(** A draw is the double [significand * 2^-(53 + scale)]: every double of
    the interval [0, 1) is one, and every draw is such a double. *)
Record draw : Type := mkDraw { mantissa : N; shift : nat }.

Definition significand (u : draw) : N := (mantissa u mod 2 ^ 53)%N.

Definition scale (u : draw) : N := N.of_nat (shift u mod 1022).

Definition value_of (u : draw) : Q :=
  Z.of_N (significand u) # Pos.pow 2 (N.succ_pos (52 + scale u)).

(** The integer nearest to [p] among those of at most 53 significant bits,
    the even one of two that are as near: the rounding of a product of
    doubles, on the significands. *)
Definition roundTiesToEven (p : N) : N :=
  let k := (N.size p - 53)%N in
  let q := (p / 2 ^ k)%N in
  let r := (p mod 2 ^ k)%N in
  let half := (2 ^ k / 2)%N in
  if (k =? 0)%N then p
  else if (r <? half)%N then (q * 2 ^ k)%N
  else if (half <? r)%N then ((q + 1) * 2 ^ k)%N
  else if N.even q then (q * 2 ^ k)%N
  else ((q + 1) * 2 ^ k)%N.

(** [Math.floor(Math.random() * n)], the product rounded as a double. *)
Definition floor_times (u : draw) (n : nat) : nat :=
  N.to_nat (roundTiesToEven (significand u * N.of_nat n) / 2 ^ (53 + scale u))%N.

(** [arr[Math.floor(Math.random() * arr.length)]]; the index is in range
    whenever the array is not empty. *)
Definition pick (u : draw) (arr : list string) : string :=
  nth (floor_times u (List.length arr)) arr "".

End Random.

(** ** The interception path: [mock-api.js] *)

Module Interception.

Definition mockResponses : list string :=
  [ "I'm a demo AI assistant! I can help you with various questions and tasks. What would you like to know?";
    "This is a simulated response from the Professional AI Chatbot. In a real implementation, I would be powered by your choice of AI model through your backend API.";
    "Great question! As a demo bot, I can show you how markdown formatting works:" ++
    nl ++ nl ++ "**Bold text**" ++ nl ++ "*Italic text*" ++ nl ++ nl ++
    "```javascript" ++ nl ++ "console.log('Code highlighting!');" ++ nl ++
    "```" ++ nl ++ nl ++ "And even lists:" ++ nl ++ "- Feature 1" ++ nl ++
    "- Feature 2" ++ nl ++ "- Feature 3";
    "I notice this is a demo environment. The chatbot supports:" ++ nl ++
    nl ++ "🎨 **Rich Formatting** - Markdown and code highlighting" ++ nl ++
    "📁 **File Uploads** - Attach documents and images" ++ nl ++
    "🎯 **Customizable** - Themes, sizing, positioning" ++ nl ++
    "💾 **Export** - Download conversation history" ++ nl ++
    "🌙 **Dark Mode** - Light/dark theme switching";
    "This chatbot component is built with vanilla JavaScript and can be integrated into any web application. It's framework-agnostic and works with React, Vue, Angular, or plain HTML!" ].

Definition codeExamples : list string :=
  [ "Here's a Python example:" ++ nl ++ nl ++ "```python" ++ nl ++
    "def hello_world():" ++ nl ++
    "    print('Hello from the AI Chatbot!')" ++ nl ++
    "    return 'Demo response'" ++ nl ++ nl ++ "hello_world()" ++ nl ++ "```";
    "And here's some JavaScript:" ++ nl ++ nl ++ "```javascript" ++ nl ++
    "const chatbot = createChatbot({" ++ nl ++
    "    endpoint: '/api/chat'," ++ nl ++ "    theme: 'dark'," ++ nl ++
    "    heading: 'My AI Assistant'" ++ nl ++ "});" ++ nl ++ nl ++
    "chatbot.show();" ++ nl ++ "```";
    "CSS styling example:" ++ nl ++ nl ++ "```css" ++ nl ++
    ".my-custom-theme {" ++ nl ++ "    --primary-color: #6366f1;" ++ nl ++
    "    --background: #f8fafc;" ++ nl ++ "    border-radius: 16px;" ++ nl ++
    "}" ++ nl ++ "```" ].

Definition technicalResponses : list string :=
  [ "The chatbot uses modern web standards including:" ++ nl ++ nl ++
    "- **Web Components** for encapsulation" ++ nl ++
    "- **CSS Custom Properties** for theming" ++ nl ++
    "- **Intersection Observer** for performance" ++ nl ++
    "- **File API** for attachments" ++ nl ++
    "- **Local Storage** for persistence";
    "Performance optimizations include:" ++ nl ++ nl ++
    "✅ Lazy loading of resources" ++ nl ++ "✅ Efficient DOM manipulation" ++
    nl ++ "✅ Debounced resize handlers" ++ nl ++
    "✅ Minimal bundle size (31.3KB)" ++ nl ++ "✅ Tree-shakeable modules" ].

Definition integrationText : string :=
    "Integration is simple! Just include the script and initialize:" ++ nl ++
    nl ++ "```html" ++ nl ++ "<script src=" ++ dq ++ "portable-chatbot.js" ++
    dq ++ " " ++ nl ++ "        data-chatbot-endpoint=" ++ dq ++
    "/api/chat" ++ dq ++ nl ++ "        data-chatbot-heading=" ++ dq ++
    "My Bot" ++ dq ++ "></script>" ++ nl ++ "```" ++ nl ++ nl ++
    "Or programmatically:" ++ nl ++ nl ++ "```javascript" ++ nl ++
    "const bot = createChatbot({" ++ nl ++ "    endpoint: '/api/chat'," ++
    nl ++ "    theme: 'dark'" ++ nl ++ "});" ++ nl ++ "```".

(** The body of [generateResponse] once [lowerMsg] is computed. *)
Definition respondTo (u : Random.draw) (lowerMsg : string) : string :=
  if includes lowerMsg "code" || includes lowerMsg "javascript"
     || includes lowerMsg "python"
  then Random.pick u codeExamples
  else if includes lowerMsg "technical" || includes lowerMsg "performance"
          || includes lowerMsg "optimize"
  then Random.pick u technicalResponses
  else if includes lowerMsg "how"
          && (includes lowerMsg "work" || includes lowerMsg "integrate")
  then integrationText
  else Random.pick u mockResponses.

(** [generateResponse(message)].  [message.toLowerCase()] is a [TypeError]
    unless [message] is a string. *)
Definition generateResponse (u : Random.draw) (message : option value)
  : result string :=
  match message with
  | Some (JStr m) => Ok (respondTo u (toLowerCase m))
  | None => Throw (TypeError (ReadOfUndefined "toLowerCase"))
  | Some JNull => Throw (TypeError (ReadOfNull "toLowerCase"))
  | Some _ => Throw (TypeError (NotAFunction "toLowerCase"))
  end.

(** *** The arguments of [fetch] *)

(** The first argument: a string, a [URL] object, or anything else (a
    [Request], say). *)
Inductive resource : Type :=
  | UrlString (s : string)
  | UrlObject (href pathname : string)
  | OtherResource (description : string).

(** An entry of a [FormData]: a text or a [File] with its name. *)
Inductive form_value : Type :=
  | Field (text : string)
  | FileEntry (name : string).

Inductive request_body : Type :=
  | FormData (entries : list (string * form_value))
  | BodyString (s : string)
  | OtherBody (description : string).

Record options : Type := mkOptions
  { method : option string;
    req_headers : list (string * string);
    body : option request_body }.

(** The default [{}] of the second parameter. *)
Definition no_options : options :=
  {| method := None; req_headers := []; body := None |}.

Definition isApiCall (url : resource) : bool :=
  match url with
  | UrlString s =>
      includes s "/api/chat" || false || endsWith s "/api/chat"
  | UrlObject _ pathname =>
      false || includes pathname "/api/chat" || false
  | OtherResource _ => false
  end.

(** [value.name] of a form entry: [undefined] on a text. *)
Definition entry_name (v : form_value) : option string :=
  match v with
  | Field _ => None
  | FileEntry name => Some name
  end.

(** The loop over [body.entries()]. *)
Fixpoint form_files (entries : list (string * form_value))
  : list (option string) :=
  match entries with
  | [] => []
  | (key, v) :: rest =>
      if startsWith key "file_" then entry_name v :: form_files rest
      else form_files rest
  end.

(** [files.join(', ')]: an [undefined] element prints as the empty text. *)
Definition join_names (files : list (option string)) : string :=
  join ", " (map (fun o => match o with Some n => n | None => "" end) files).

Definition fileAcknowledgment (files : list (option string)) : string :=
  "I can see you've uploaded: **" ++ join_names files ++ "**" ++ nl ++ nl ++
  "In a real implementation, I would analyze these files. For this demo, I'm just acknowledging them!".

Definition jsonHeaders : list (string * string) :=
  [("Content-Type", "application/json")].

Definition eventStreamHeaders : list (string * string) :=
  [("Content-Type", "text/event-stream");
   ("Cache-Control", "no-cache");
   ("Connection", "keep-alive")].

(** *** The stream of the streaming branch

    The state of the [ReadableStream] and of its timer: the counter [i],
    what was enqueued so far, and whether the stream was closed (and the
    timer cleared). *)
Record stream_state : Type := mkStream
  { counter : nat;
    enqueued : list string;
    closed : bool }.

Definition start : stream_state :=
  {| counter := 0; enqueued := []; closed := false |}.

(** The text of the chunk of index [i]. *)
Definition chunkContent (chunks : list string) (i : nat) : string :=
  if (i =? 0)%nat then nth i chunks "" else " " ++ nth i chunks "".

Definition doneLiteral : string :=
  "data: {" ++ dq ++ "done" ++ dq ++ ": true}" ++ nl ++ nl.

(** One firing of the interval timer. *)
Definition tick (chunks : list string) (st : stream_state) : stream_state :=
  if (counter st <? List.length chunks)%nat then
    let chunkData := JObj [("content", JStr (chunkContent chunks (counter st)))] in
    let chunk := "data: " ++ JSON_stringify chunkData ++ nl ++ nl in
    {| counter := S (counter st);
       enqueued := (enqueued st ++ [chunk])%list;
       closed := false |}
  else
    {| counter := counter st;
       enqueued := (enqueued st ++ [doneLiteral])%list;
       closed := true |}.

(** The timer fires until it is cleared. *)
Fixpoint run (chunks : list string) (fuel : nat) (st : stream_state)
  : stream_state :=
  if closed st then st
  else match fuel with
       | O => st
       | S fuel' => run chunks fuel' (tick chunks st)
       end.

(** What the stream delivers for a reply: [chunks.length + 1] firings
    close it. *)
Definition streamOf (response : string) : list string :=
  let chunks := split " " response in
  enqueued (run chunks (S (List.length chunks)) start).

Section Fetch.

Variable JSON_parse : string -> result value.
Variable originalFetch : resource -> options -> response.

(** The statements of the [try] block after the [FormData] test, for a body
    that is not a [FormData]. *)
Definition parseBody (b : option request_body) : value * value :=
  match b with
  | Some (BodyString s) =>
      match JSON_parse s with
      | Ok data =>
          match get_prop (Some data) "messages" with
          | Ok m => (data, if truthy m then
                             match m with Some x => x | None => JArr [] end
                           else JArr [])
          | Throw _ => (data, JArr [])
          end
      | Throw _ => (JObj [], JArr [])
      end
  | _ => (JObj [], JArr [])
  end.

Definition userMessageOf (messages : value) : result (option value) :=
  let lastMessage := js_last messages in
  if truthy lastMessage then get_prop lastMessage "content"
  else Ok (Some (JStr "Hello")).

(** From the body to the reply and the test [data.stream]. *)
Definition selected (u : Random.draw) (b : option request_body)
  : result (string * bool) :=
  let (data, messages) := parseBody b in
  bind (userMessageOf messages) (fun userMessage =>
  bind (generateResponse u userMessage) (fun response =>
  bind (get_prop (Some data) "stream") (fun stream =>
  Ok (response, truthy stream)))).

(** The two responses that carry a reply. *)
Definition deliver (response : string) (streaming : bool) : Http.response :=
  if streaming then
    {| status := 200;
       headers := eventStreamHeaders;
       payload := Stream (streamOf response) |}
  else
    let streamData :=
      "data: " ++ JSON_stringify (JObj [("content", JStr response)])
      ++ nl ++ nl ++
      "data: " ++ JSON_stringify (JObj [("done", JBool true)])
      ++ nl ++ nl in
    {| status := 200;
       headers := eventStreamHeaders;
       payload := Text streamData |}.

(** The response to a [FormData]. *)
Definition formResponse (fileResponse : string) : Http.response :=
  {| status := 200;
     headers := jsonHeaders;
     payload := Text (JSON_stringify
       (JObj [("choices",
          JArr [JObj [("message",
            JObj [("content", JStr fileResponse)])]])])) |}.

(** The [try] block. *)
Definition serve (u : Random.draw) (opts : options) : result response :=
  match body opts with
  | Some (FormData entries) =>
      let files := form_files entries in
      bind (if (0 <? List.length files)%nat then Ok (fileAcknowledgment files)
            else generateResponse u (Some (JStr "file upload")))
        (fun fileResponse => Ok (formResponse fileResponse))
  | b =>
      bind (selected u b) (fun rs => Ok (deliver (fst rs) (snd rs)))
  end.

Definition simulationError : response :=
  {| status := 500;
     headers := jsonHeaders;
     payload := Text (JSON_stringify
                  (JObj [("error", JStr "Demo API simulation error")])) |}.

(** [window.fetch], for the draw [u] of the selector.  An omitted second
    argument is [None]. *)
Definition fetch (u : Random.draw) (url : resource) (opts : option options)
  : response :=
  let options := match opts with Some o => o | None => no_options end in
  if isApiCall url then
    match serve u options with
    | Ok r => r
    | Throw _ => simulationError
    end
  else originalFetch url options.

End Fetch.

End Interception.

(** ** The listener path: [backend-example.js] *)

Module Listener.

(** A file of a multipart request, as multer describes it. *)
Record file : Type := mkFile
  { originalname : string;
    mimetype : string;
    size : N;
    path : string }.

Definition allowedTypes : list string :=
  [ "image/jpeg"; "image/png"; "image/gif"; "image/webp";
    "application/pdf"; "text/plain";
    "application/msword";
    "application/vnd.openxmlformats-officedocument.wordprocessingml.document" ].

(** [upload.fileFilter]: [cb(null, true)] is [Ok true], [cb(error, false)]
    is [Throw error]. *)
Definition fileFilter (f : file) : result bool :=
  if existsb (String.eqb (mimetype f)) allowedTypes then Ok true
  else Throw (Error ("File type " ++ mimetype f ++ " not allowed")).

Definition fileSizeLimit : N := 10 * 1024 * 1024.
Definition filesLimit : nat := 5.

(** [upload.any()]: multer takes the files in the order of the request;
    one file more than [limits.files] is [LIMIT_FILE_COUNT], then the filter
    is asked, then a file longer than [limits.fileSize] is
    [LIMIT_FILE_SIZE].  The first error ends the upload.  The files are
    the parts that carry a file name (multer passes over a part without
    one); its limits on the text fields are not part of this model. *)
Fixpoint uploadAny (seen : nat) (incoming : list file) : result (list file) :=
  match incoming with
  | [] => Ok []
  | f :: rest =>
      if (filesLimit <=? seen)%nat
      then Throw (MulterError "LIMIT_FILE_COUNT" "Too many files")
      else
        bind (fileFilter f) (fun keep =>
        if (fileSizeLimit <? size f)%N
        then Throw (MulterError "LIMIT_FILE_SIZE" "File too large")
        else bind (uploadAny (S seen) rest) (fun kept =>
             Ok (if keep then f :: kept else kept)))
  end.

Definition mockResponses : list string :=
  [ "Hello! I'm a demo AI assistant. How can I help you today?";
    "That's an interesting question! Let me think about that for a moment.";
    "I understand what you're asking. Here's what I think about that topic.";
    "Thanks for sharing that with me. I appreciate your input.";
    "I'm here to help with any questions you might have.";
    "That's a great point! Let me expand on that idea.";
    "I can see why that would be important to you." ].

Definition getRandomResponse (u : Random.draw) : string :=
  Random.pick u mockResponses.

Definition codeResponse : string :=
    "Here's a code example:" ++ nl ++ nl ++ "```javascript" ++ nl ++
    "function greet(name) {" ++ nl ++ "    return `Hello, ${name}!`;" ++
    nl ++ "}" ++ nl ++ nl ++ "console.log(greet(" ++ dq ++ "World" ++ dq ++
    "));" ++ nl ++ "```" ++ nl ++ nl ++
    "This function demonstrates basic JavaScript syntax with template literals.".

Definition markdownResponse : string :=
    "Here's some **markdown** formatting:" ++ nl ++ nl ++ "# Header 1" ++
    nl ++ "## Header 2" ++ nl ++ nl ++ "- List item 1" ++ nl ++
    "- List item 2" ++ nl ++ nl ++ "*Italic text* and **bold text**" ++ nl ++
    nl ++ "> This is a blockquote" ++ nl ++ nl ++
    "And here's a [link](https://example.com)!".

Definition fileNamesOf (files : list file) : string :=
  join ", " (map originalname files).

Definition fileAcknowledgment (files : list file) : string :=
  "I can see you've uploaded " ++ string_of_nat (List.length files) ++
  " file(s): " ++ fileNamesOf files ++
  ". I'm a demo bot so I can't actually process files, but in a real implementation, I would analyze them for you!".

(** The request as the route sees it: the fields of [req.body] and
    [req.files] (empty when the request has none). *)
Record request : Type := mkRequest
  { body : list (string * value);
    files : list file }.

(** [res.status(code).json(obj)] *)
Definition json (code : nat) (obj : value) : response :=
  {| status := code;
     headers := [("Content-Type", "application/json; charset=utf-8")];
     payload := Text (JSON_stringify obj) |}.

Definition eventStreamHeaders : list (string * string) :=
  [("Content-Type", "text/event-stream");
   ("Cache-Control", "no-cache");
   ("Connection", "keep-alive");
   ("Access-Control-Allow-Origin", "*")].

(** [req.body.stream === 'true' || req.body.stream === true] *)
Definition isStreaming (body : list (string * value)) : bool :=
  match assoc "stream" body with
  | Some (JStr s) => String.eqb s "true" || false
  | Some (JBool b) => false || Bool.eqb b true
  | _ => false
  end.

(** The text of the chunk written for the word of index [i]. *)
Definition wordChunk (words : list string) (i : nat) : string :=
  nth i words "" ++ (if (i <? List.length words - 1)%nat then " " else "").

(** The [for] loop of the streaming branch: [written] is what [res.write]
    has sent so far. *)
Fixpoint writeWords (words : list string) (fuel i : nat)
  (written : list string) : list string :=
  match fuel with
  | O => written
  | S fuel' =>
      if (i <? List.length words)%nat then
        let chunk :=
          "data: " ++
          JSON_stringify (JObj [("content", JStr (wordChunk words i))])
          ++ nl ++ nl in
        writeWords words fuel' (S i) (written ++ [chunk])%list
      else written
  end.

(** Everything written to the response in the streaming branch. *)
Definition streamOf (response : string) : list string :=
  let words := split " " response in
  let completion :=
    "data: " ++ JSON_stringify (JObj [("done", JBool true)]) ++ nl ++ nl in
  (writeWords words (List.length words) 0 [] ++ [completion])%list.

Section Route.

Variable JSON_parse : string -> result value.
(** The text the engine gives to a [TypeError]. *)
Variable typeErrorMessage : fault -> string.
(** [new Date().toISOString()] when the reply is sent. *)
Variable timestamp : string.

Definition messageOf (error : js_error) : string :=
  match error with
  | SyntaxError message => message
  | TypeError f => typeErrorMessage f
  | Error message => message
  | MulterError _ message => message
  end.

(** The parsing of [req.body.messages]. *)
Definition messagesOf (body : list (string * value)) : result value :=
  let m := assoc "messages" body in
  if truthy m then
    match m with
    | Some (JStr s) => JSON_parse s
    | Some x => Ok x
    | None => Ok (JArr [])
    end
  else Ok (JArr []).

(** [messages.length], which the log line reads: a [TypeError] when
    [JSON.parse] returned [null]; the number is only logged. *)
Definition lengthOf (messages : value) : result unit :=
  match messages with
  | JNull => Throw (TypeError (ReadOfNull "length"))
  | _ => Ok tt
  end.

Definition userMessageOf (messages : value) : result (option value) :=
  let lastMessage := js_last messages in
  if truthy lastMessage then get_prop lastMessage "content"
  else Ok (Some (JStr "")).

(** [userMessage.toLowerCase()] *)
Definition lowerOf (userMessage : option value) : result string :=
  match userMessage with
  | Some (JStr m) => Ok (toLowerCase m)
  | None => Throw (TypeError (ReadOfUndefined "toLowerCase"))
  | Some JNull => Throw (TypeError (ReadOfNull "toLowerCase"))
  | Some _ => Throw (TypeError (NotAFunction "toLowerCase"))
  end.

(** The choice of the reply. *)
Definition respond (u : Random.draw) (userMessage : option value)
  (files : list file) : result string :=
  bind (lowerOf userMessage) (fun lower =>
  if includes lower "file" && (0 <? List.length files)%nat
  then Ok (fileAcknowledgment files)
  else if includes lower "code" then Ok codeResponse
  else if includes lower "markdown" then Ok markdownResponse
  else Ok (getRandomResponse u)).

(** From the request to the reply and [isStreaming]. *)
Definition selected (u : Random.draw) (req : request)
  : result (string * bool) :=
  bind (messagesOf (body req)) (fun messages =>
  let isStreaming := isStreaming (body req) in
  bind (lengthOf messages) (fun _ =>
  bind (userMessageOf messages) (fun userMessage =>
  bind (respond u userMessage (files req)) (fun response =>
  Ok (response, isStreaming))))).

(** The two responses that carry a reply. *)
Definition deliver (response : string) (isStreaming : bool) : Http.response :=
  if isStreaming then
    {| status := 200;
       headers := eventStreamHeaders;
       payload := Stream (streamOf response) |}
  else
    json 200 (JObj [("content", JStr response);
                    ("done", JBool true);
                    ("timestamp", JStr timestamp)]).

(** The [try] block of the route. *)
Definition chat (u : Random.draw) (req : request) : result response :=
  bind (selected u req) (fun rs => Ok (deliver (fst rs) (snd rs))).

(** The route [POST /api/chat] with its [catch]. *)
Definition chatRoute (u : Random.draw) (req : request) : response :=
  match chat u req with
  | Ok r => r
  | Throw error =>
      json 500 (JObj [("error", JStr "Internal server error");
                      ("message", JStr (messageOf error))])
  end.

(** The error-handling middleware. *)
Definition errorMiddleware (error : js_error) : response :=
  match error with
  | MulterError "LIMIT_FILE_SIZE" _ =>
      json 400 (JObj [("error", JStr "File too large");
                      ("message", JStr "Maximum file size is 10MB")])
  | MulterError "LIMIT_FILE_COUNT" _ =>
      json 400 (JObj [("error", JStr "Too many files");
                      ("message", JStr "Maximum 5 files allowed")])
  | _ =>
      json 500 (JObj [("error", JStr "Server error");
                      ("message", JStr (messageOf error))])
  end.

(** A request to [POST /api/chat]: the upload middleware, then the route,
    or the error middleware when the upload fails. *)
Definition post (u : Random.draw) (fields : list (string * value))
  (incoming : list file) : response :=
  match uploadAny 0 incoming with
  | Ok kept => chatRoute u {| body := fields; files := kept |}
  | Throw error => errorMiddleware error
  end.

End Route.

End Listener.

(** ** The wire protocol, as the specification words it

    Records [data: <json>] followed by an empty line, where [<json>] is
    [{"content": <text>}] or [{"done": true}]; the reader below is the one
    a client needs.  Words are the maximal runs without white space. *)

Module Spec.

Inductive record : Type :=
  | Content (text : string)
  | Done.

(** [s] without its prefix [p]. *)
Fixpoint strip (p s : string) : option string :=
  match p with
  | EmptyString => Some s
  | String a p' =>
      match s with
      | EmptyString => None
      | String b s' => if Ascii.eqb a b then strip p' s' else None
      end
  end.

Definition hex_value (c : ascii) : option nat :=
  let n := nat_of_ascii c in
  if (48 <=? n)%nat && (n <=? 57)%nat then Some (n - 48)
  else if (97 <=? n)%nat && (n <=? 102)%nat then Some (n - 87)
  else if (65 <=? n)%nat && (n <=? 70)%nat then Some (n - 55)
  else None.

(** The character an escape letter stands for. *)
Definition escaped (c : ascii) : option ascii :=
  let n := nat_of_ascii c in
  if (n =? 34)%nat || (n =? 92)%nat || (n =? 47)%nat then Some c
  else if (n =? 98)%nat then Some (ascii_of_nat 8)
  else if (n =? 102)%nat then Some (ascii_of_nat 12)
  else if (n =? 110)%nat then Some (ascii_of_nat 10)
  else if (n =? 114)%nat then Some (ascii_of_nat 13)
  else if (n =? 116)%nat then Some (ascii_of_nat 9)
  else None.

Definition push (c : ascii) (r : option (string * string))
  : option (string * string) :=
  match r with
  | Some (t, rest) => Some (String c t, rest)
  | None => None
  end.

(** Reads a JSON string after its opening quote: the text, and what
    follows the closing quote. *)
Fixpoint read_string (s : string) : option (string * string) :=
  match s with
  | EmptyString => None
  | String c s' =>
      if (nat_of_ascii c =? 34)%nat then Some (EmptyString, s')
      else if (nat_of_ascii c =? 92)%nat then
        match s' with
        | String "u" (String "0" (String "0" (String h (String l s'')))) =>
            match hex_value h, hex_value l with
            | Some a, Some b => push (ascii_of_nat (16 * a + b)) (read_string s'')
            | _, _ => None
            end
        | String e s'' =>
            match escaped e with
            | Some x => push x (read_string s'')
            | None => None
            end
        | EmptyString => None
        end
      else push c (read_string s')
  end.

Definition endOfRecord : string := nl ++ nl.

(** Reads one record at the head of [s]. *)
Definition read_record (s : string) : option (record * string) :=
  match strip "data: " s with
  | None => None
  | Some json =>
      match strip ("{" ++ dq ++ "done" ++ dq ++ ":true}" ++ endOfRecord) json,
            strip ("{" ++ dq ++ "done" ++ dq ++ ": true}" ++ endOfRecord) json with
      | Some rest, _ => Some (Done, rest)
      | None, Some rest => Some (Done, rest)
      | None, None =>
          match strip ("{" ++ dq ++ "content" ++ dq ++ ":" ++ dq) json with
          | None => None
          | Some quoted =>
              match read_string quoted with
              | None => None
              | Some (text, after) =>
                  match strip ("}" ++ endOfRecord) after with
                  | Some rest => Some (Content text, rest)
                  | None => None
                  end
              end
          end
      end
  end.

Fixpoint read_records (fuel : nat) (s : string) : option (list record) :=
  match s with
  | EmptyString => Some []
  | _ =>
      match fuel with
      | O => None
      | S fuel' =>
          match read_record s with
          | Some (r, rest) =>
              match read_records fuel' rest with
              | Some rs => Some (r :: rs)
              | None => None
              end
          | None => None
          end
      end
  end.

(** The texts of a list, one after the other. *)
Fixpoint cat (l : list string) : string :=
  match l with
  | [] => EmptyString
  | x :: l' => x ++ cat l'
  end.

(** The records of a body, if it is a sequence of records. *)
Definition records_of (b : Http.body) : option (list record) :=
  let s := match b with
           | Text s => s
           | Stream chunks => cat chunks
           end in
  read_records (String.length s) s.

(** The texts of the content records. *)
Fixpoint texts (rs : list record) : list string :=
  match rs with
  | [] => []
  | Content t :: rs' => t :: texts rs'
  | Done :: rs' => texts rs'
  end.

Definition is_space (c : ascii) : bool :=
  let n := nat_of_ascii c in
  (n =? 32)%nat || ((9 <=? n)%nat && (n <=? 13)%nat).

(** The pieces between white-space characters. *)
Fixpoint pieces (s : string) : list string :=
  match s with
  | EmptyString => [EmptyString]
  | String c s' =>
      if is_space c then EmptyString :: pieces s'
      else match pieces s' with
           | w :: ws => String c w :: ws
           | [] => [String c EmptyString]
           end
  end.

(** The words of a text: its pieces that are not empty. *)
Definition words (s : string) : list string :=
  filter (fun w => negb (String.eqb w "")) (pieces s).

(** Each word with a space after it, except the last one. *)
Fixpoint trailing (ws : list string) : list string :=
  match ws with
  | [] => []
  | [w] => [w]
  | w :: ws' => (w ++ " ") :: trailing ws'
  end.

End Spec.

(** ** Notions used in the statements *)

(** The first piece bare, every later piece after a space. *)
Definition leading (ws : list string) : list string :=
  match ws with
  | [] => []
  | w :: ws' => w :: map (fun x => " " ++ x) ws'
  end.

(** The record of a content fragment, as both paths write it. *)
Definition contentFrame (text : string) : string :=
  "data: " ++ JSON_stringify (JObj [("content", JStr text)]) ++ nl ++ nl.

(** The completion record of the listener and of the non-streaming
    interception reply. *)
Definition doneFrame : string :=
  "data: " ++ JSON_stringify (JObj [("done", JBool true)]) ++ nl ++ nl.

(** A chunk that spells a record. *)
Inductive spells : string -> Spec.record -> Prop :=
  | spells_content text : spells (contentFrame text) (Spec.Content text)
  | spells_done : spells doneFrame Spec.Done
  | spells_done_literal : spells Interception.doneLiteral Spec.Done.

(** A file that the upload accepts: its type is allowed and it is not
    longer than the limit. *)
Definition accepted (f : Listener.file) : Prop :=
  existsb (String.eqb (Listener.mimetype f)) Listener.allowedTypes = true /\
  (Listener.size f <= Listener.fileSizeLimit)%N.

(** The draw [k * 2^-53], one of the 2^53 equally spaced doubles of the
    interval [0, 1). *)
Definition grid (k : N) : Random.draw := Random.mkDraw k 0.

(** [bounds] cuts these draws into runs, one for each index of an array
    of length [n]: the draws of the run of [i] are those that select [i]. *)
Definition selects_by_runs (n : nat) (bounds : list N) : Prop :=
  forall k i, (k < 2 ^ 53)%N ->
    (Random.floor_times (grid k) n = i <->
     (nth i bounds 0 <= k < nth (S i) bounds 0)%N).

(** No run is longer than another by more than one draw. *)
Definition evenly_cut (n : nat) (bounds : list N) : Prop :=
  forall i j, i < n -> j < n ->
    (nth (S i) bounds 0 - nth i bounds 0
     <= nth (S j) bounds 0 - nth j bounds 0 + 1)%N.

(** There is a bound more than indexes, the runs start at 0 and end at
    2^53, and the first and the last draw
    of each run select its index. *)
Definition runs_checked (n : nat) (bounds : list N) : bool :=
  (List.length bounds =? S n)%nat &&
  (nth 0 bounds 0 =? 0)%N && (nth n bounds 0 =? 2 ^ 53)%N &&
  forallb (fun i =>
    (nth i bounds 0 <? nth (S i) bounds 0)%N
    && (Random.floor_times (grid (nth i bounds 0%N)) n =? i)%nat
    && (Random.floor_times (grid (nth (S i) bounds 0 - 1)%N) n =? i)%nat)
    (seq 0 n).

(** The runs for an array of five entries and for one of seven. *)
Definition fiveRuns : list N :=
  [0; 1801439850948199; 3602879701896397; 5404319552844595;
   7205759403792794; 9007199254740992]%N.

Definition sevenRuns : list N :=
  [0; 1286742750677285; 2573485501354569; 3860228252031854;
   5146971002709138; 6433713753386423; 7720456504063707;
   9007199254740992]%N.

Inductive path : Type :=
  | ViaInterception
  | ViaListener.

Definition isForm (b : option Interception.request_body) : bool :=
  match b with
  | Some (Interception.FormData _) => true
  | _ => false
  end.

Section Answers.

Variable JSON_parse : string -> result value.
Variable originalFetch : Interception.resource -> Interception.options -> response.
Variable typeErrorMessage : fault -> string.
Variable timestamp : string.

(** [answers p resp reply streaming]: [resp] is the response of the path
    [p] to a chat request for which the selector returned [reply] and the
    streaming test gave [streaming].  On the interception path the request
    is one whose body is not a [FormData]. *)
Inductive answers : path -> response -> string -> bool -> Prop :=
  | answers_interception u url o reply streaming :
      Interception.isApiCall url = true ->
      isForm (Interception.body o) = false ->
      Interception.selected JSON_parse u (Interception.body o)
        = Ok (reply, streaming) ->
      answers ViaInterception
        (Interception.fetch JSON_parse originalFetch u url (Some o))
        reply streaming
  | answers_listener u req reply streaming :
      Listener.selected JSON_parse u req = Ok (reply, streaming) ->
      answers ViaListener
        (Listener.chatRoute JSON_parse typeErrorMessage timestamp u req)
        reply streaming.

End Answers.

(** *** A concrete engine for the examples

    [JSON.parse] restricted to a table of texts (a [SyntaxError] elsewhere),
    a network that answers 404, a fixed error text and a fixed clock. *)

Module Example.

Definition parseTable (table : list (string * value)) (s : string)
  : result value :=
  match assoc s table with
  | Some v => Ok v
  | None => Throw (SyntaxError "Unexpected token")
  end.

Definition network (url : Interception.resource) (o : Interception.options)
  : response :=
  {| status := 404; headers := []; payload := Text "Not Found" |}.

Definition typeErrorText (f : fault) : string :=
  match f with
  | ReadOfNull prop => "Cannot read properties of null (reading '" ++ prop ++ "')"
  | ReadOfUndefined prop =>
      "Cannot read properties of undefined (reading '" ++ prop ++ "')"
  | NotAFunction method => method ++ " is not a function"
  end.

Definition clock : string := "2024-01-01T00:00:00.000Z".

Definition first : Random.draw := Random.mkDraw 0 0.

(** [{"messages":[{"role":"user","content":"hi"}],"stream":true}] *)
Definition hiText : string :=
  "{" ++ dq ++ "messages" ++ dq ++ ":[{" ++ dq ++ "role" ++ dq ++ ":" ++ dq
  ++ "user" ++ dq ++ "," ++ dq ++ "content" ++ dq ++ ":" ++ dq ++ "hi" ++ dq
  ++ "}]," ++ dq ++ "stream" ++ dq ++ ":true}".

Definition hiValue (stream : value) : value :=
  JObj [("messages", JArr [JObj [("role", JStr "user"); ("content", JStr "hi")]]);
        ("stream", stream)].

(** The same with ["stream":"false"], the text [false] and not the
    boolean. *)
Definition falseText : string :=
  "{" ++ dq ++ "messages" ++ dq ++ ":[{" ++ dq ++ "role" ++ dq ++ ":" ++ dq
  ++ "user" ++ dq ++ "," ++ dq ++ "content" ++ dq ++ ":" ++ dq ++ "hi" ++ dq
  ++ "}]," ++ dq ++ "stream" ++ dq ++ ":" ++ dq ++ "false" ++ dq ++ "}".

(** [{"messages":[]}] *)
Definition emptyText : string :=
  "{" ++ dq ++ "messages" ++ dq ++ ":[]}".

Definition parse : string -> result value :=
  parseTable [ (hiText, hiValue (JBool true));
               (falseText, hiValue (JStr "false"));
               (emptyText, JObj [("messages", JArr [])]) ].

Definition chatUrl : Interception.resource := Interception.UrlString "/api/chat".

Definition post (b : Interception.request_body) : Interception.options :=
  {| Interception.method := Some "POST";
     Interception.req_headers := [];
     Interception.body := Some b |}.

Definition postJson (text : string) : Interception.options :=
  {| Interception.method := Some "POST";
     Interception.req_headers := [("Content-Type", "application/json")];
     Interception.body := Some (Interception.BodyString text) |}.

(** A request to the listener with one user message. *)
Definition ask (content : string) (more : list (string * value))
  (files : list Listener.file) : Listener.request :=
  {| Listener.body :=
       ("messages", JArr [JObj [("role", JStr "user"); ("content", JStr content)]])
       :: more;
     Listener.files := files |}.

Definition report : Listener.file :=
  {| Listener.originalname := "report.pdf";
     Listener.mimetype := "application/pdf";
     Listener.size := 2048;
     Listener.path := "uploads/0001" |}.

Definition archive : Listener.file :=
  {| Listener.originalname := "site.zip";
     Listener.mimetype := "application/zip";
     Listener.size := 2048;
     Listener.path := "uploads/0002" |}.

Definition markdownAsk : Listener.request :=
  ask "show me markdown" [("stream", JBool true)] [].

Definition hiAsk : Listener.request := ask "hi" [] [].

Definition fileAsk : Listener.request :=
  ask "Here is the FILE with my code" [] [report].

Definition brokenAsk : Listener.request :=
  {| Listener.body := [("messages", JStr "{")]; Listener.files := [] |}.

Definition emptyAsk : Listener.request :=
  {| Listener.body := [("messages", JArr [])]; Listener.files := [] |}.

Definition upload : list (string * Interception.form_value) :=
  [ ("messages", Interception.Field hiText);
    ("stream", Interception.Field "true");
    ("file_0", Interception.FileEntry "report.pdf");
    ("file_1", Interception.FileEntry "notes.txt") ].

End Example.

(** ** The rest of [mock-api.js] *)

Module Demo.

(** An element of the page: its [id], its [innerHTML] and the [cssText] of
    its style. *)
Record element : Type := mkElement
  { id : string;
    innerHTML : string;
    cssText : string }.

(** The elements of the document, in document order; a child appended to
    the body comes last. *)
Definition document : Type := list element.

Definition getElementById (name : string) (doc : document) : option element :=
  find (fun e => String.eqb (id e) name) doc.

Definition indicator : element :=
  {| id := "demo-indicator";
     innerHTML := "🎭 Demo Mode Active";
     cssText :=
       nl ++ "            position: fixed;" ++ nl ++ "            top: 10px;" ++
       nl ++ "            left: 10px;" ++ nl ++
       "            background: #10b981;" ++ nl ++
       "            color: white;" ++ nl ++ "            padding: 8px 12px;" ++
       nl ++ "            border-radius: 20px;" ++ nl ++
       "            font-size: 12px;" ++ nl ++
       "            font-weight: 600;" ++ nl ++ "            z-index: 10000;" ++
       nl ++ "            box-shadow: 0 2px 8px rgba(0,0,0,0.1);" ++ nl ++
       "            font-family: -apple-system, BlinkMacSystemFont, sans-serif;" ++
       nl ++ "        " |}.

(** [addDemoIndicator()], as a function of the document. *)
Definition addDemoIndicator (doc : document) : document :=
  match getElementById "demo-indicator" doc with
  | Some _ => doc
  | None => (doc ++ [indicator])%list
  end.

Section Installed.

Variable JSON_parse : string -> result value.
Variable originalFetch :
  Interception.resource -> Interception.options -> response.

(** The script run a second time: its [originalFetch] is the [window.fetch]
    that the first run left, whose selector draws [inner]. *)
Definition installedTwice (inner u : Random.draw)
  (url : Interception.resource) (opts : option Interception.options)
  : response :=
  Interception.fetch JSON_parse
    (fun url' o => Interception.fetch JSON_parse originalFetch inner url' (Some o))
    u url opts.

(** [window.testMockAPI()]: the response of the call, [None] for the
    [undefined] of the [catch]. *)
Definition testMockAPI (u : Random.draw) : option response :=
  Some (Interception.fetch JSON_parse originalFetch u
          (Interception.UrlString "/api/chat")
          (Some {| Interception.method := Some "POST";
                   Interception.req_headers :=
                     [("Content-Type", "application/json")];
                   Interception.body :=
                     Some (Interception.BodyString
                       (JSON_stringify
                          (JObj [("messages",
                                  JArr [JObj [("role", JStr "user");
                                              ("content", JStr "test")]]);
                                 ("stream", JBool true)]))) |})).

End Installed.

End Demo.

(** A text without control characters. *)
Fixpoint printable (s : string) : bool :=
  match s with
  | EmptyString => true
  | String c s' => (32 <=? nat_of_ascii c)%nat && printable s'
  end.

(** An element that has the [id] of the badge. *)
Definition isIndicator (e : Demo.element) : bool :=
  String.eqb (Demo.id e) "demo-indicator".

(** *** Sample requests for the further properties *)

Module Samples.

(** [{"messages":[{"role":"user"}]}] *)
Definition noContentText : string :=
  "{" ++ dq ++ "messages" ++ dq ++ ":[{" ++ dq ++ "role" ++ dq ++ ":" ++ dq
  ++ "user" ++ dq ++ "}]}".

Definition noContentMessages : list value := [JObj [("role", JStr "user")]].

(** [[{"role":"user","content":"hi"}]] *)
Definition hiArrayText : string :=
  "[{" ++ dq ++ "role" ++ dq ++ ":" ++ dq ++ "user" ++ dq ++ "," ++ dq
  ++ "content" ++ dq ++ ":" ++ dq ++ "hi" ++ dq ++ "}]".

Definition hiMessages : list value :=
  [JObj [("role", JStr "user"); ("content", JStr "hi")]].

Definition selfTestRequest : value :=
  JObj [("messages", JArr [JObj [("role", JStr "user"); ("content", JStr "test")]]);
        ("stream", JBool true)].

Definition parse : string -> result value :=
  Example.parseTable
    [ ("null", JNull);
      ("42", JNum 42);
      (noContentText, JObj [("messages", JArr noContentMessages)]);
      (hiArrayText, JArr hiMessages);
      (JSON_stringify selfTestRequest, selfTestRequest) ].

(** An address of another endpoint, in which [/api/chat] occurs. *)
Definition roomsUrl : Interception.resource :=
  Interception.UrlString "/api/chatter/rooms".

Definition healthUrl : Interception.resource :=
  Interception.UrlString "/api/health".

Definition noContentAsk : Listener.request :=
  {| Listener.body := [("messages", JArr noContentMessages)];
     Listener.files := [] |}.

End Samples.

(** * Properties *)

(** ** Strings: [split], [join] and the fragments of a reply *)

Section StringFacts.

Lemma append_nil_r (s : string) : s ++ "" = s.
Proof. induction s as [|c s IH]; simpl; [reflexivity | now rewrite IH]. Qed.

Lemma append_assoc (a b c : string) : (a ++ b) ++ c = a ++ (b ++ c).
Proof. induction a as [|x a IH]; simpl; [reflexivity | now rewrite IH]. Qed.

Lemma length_append (a b : string) :
  String.length (a ++ b) = String.length a + String.length b.
Proof. induction a as [|x a IH]; simpl; [reflexivity | now rewrite IH]. Qed.

Lemma split_not_nil (sep : ascii) (s : string) : split sep s <> [].
Proof.
  destruct s as [|c s]; simpl; [discriminate|].
  destruct (Ascii.eqb c sep); [discriminate|].
  destruct (split sep s); discriminate.
Qed.

Lemma join_cons (sep w : string) (ws : list string) :
  ws <> [] -> join sep (w :: ws) = w ++ sep ++ join sep ws.
Proof. destruct ws; [congruence | reflexivity]. Qed.

Lemma join_cons_char (sep : string) (c : ascii) (w : string) (ws : list string) :
  join sep (String c w :: ws) = String c (join sep (w :: ws)).
Proof. destruct ws; reflexivity. Qed.

(** Joining the pieces with the separator gives the text back. *)
Lemma join_split (sep : ascii) (s : string) :
  join (String sep "") (split sep s) = s.
Proof.
  induction s as [|c s IH]; simpl; [reflexivity|].
  destruct (Ascii.eqb c sep) eqn:E.
  - apply Ascii.eqb_eq in E; subst c.
    rewrite join_cons by apply split_not_nil.
    simpl. now rewrite IH.
  - destruct (split sep s) as [|w ws] eqn:Es.
    + now destruct (split_not_nil sep s).
    + rewrite join_cons_char. now rewrite IH.
Qed.

Lemma cat_leading (ws : list string) :
  Spec.cat (leading ws) = join " " ws.
Proof.
  destruct ws as [|w ws]; [reflexivity|].
  revert w; induction ws as [|x ws IH]; intro w.
  - simpl. apply append_nil_r.
  - rewrite join_cons by discriminate.
    rewrite <- IH. reflexivity.
Qed.

Lemma cat_trailing (ws : list string) :
  Spec.cat (Spec.trailing ws) = join " " ws.
Proof.
  induction ws as [|w ws IH]; [reflexivity|].
  destruct ws as [|x ws]; [apply append_nil_r|].
  rewrite join_cons by discriminate.
  rewrite <- IH.
  change (Spec.trailing (w :: x :: ws)) with ((w ++ " ") :: Spec.trailing (x :: ws)).
  simpl Spec.cat at 1. apply append_assoc.
Qed.

Lemma length_leading (ws : list string) :
  List.length (leading ws) = List.length ws.
Proof. destruct ws; simpl; [reflexivity | now rewrite length_map]. Qed.

Lemma length_trailing (ws : list string) :
  List.length (Spec.trailing ws) = List.length ws.
Proof.
  induction ws as [|w ws IH]; [reflexivity|].
  destruct ws; [reflexivity|].
  change (S (List.length (Spec.trailing (s :: ws))) = S (List.length (s :: ws))).
  now rewrite IH.
Qed.

End StringFacts.

(** ** Reading the records back *)

Section Reading.

Lemma contentFrame_shape (text rest : string) :
  contentFrame text ++ rest =
  "data: " ++ ("{" ++ dq ++ "content" ++ dq ++ ":" ++ dq)
  ++ escape text ++ dq ++ ("}" ++ Spec.endOfRecord) ++ rest.
Proof.
  unfold contentFrame, JSON_stringify, quote, join, map.
  repeat rewrite append_assoc. reflexivity.
Qed.

Lemma read_escape_char (c : ascii) (tail : string) :
  Spec.read_string (escape_char c ++ tail) = Spec.push c (Spec.read_string tail).
Proof.
  destruct c as [[] [] [] [] [] [] [] []]; reflexivity.
Qed.

Lemma read_string_escape (s rest : string) :
  Spec.read_string (escape s ++ dq ++ rest) = Some (s, rest).
Proof.
  induction s as [|c s IH]; [reflexivity|].
  simpl escape. rewrite append_assoc, read_escape_char, IH. reflexivity.
Qed.

Lemma strip_app (p s : string) : Spec.strip p (p ++ s) = Some s.
Proof.
  induction p as [|a p IH]; simpl; [reflexivity|].
  now rewrite Ascii.eqb_refl.
Qed.

Lemma read_contentFrame (text rest : string) :
  Spec.read_record (contentFrame text ++ rest) = Some (Spec.Content text, rest).
Proof.
  rewrite contentFrame_shape.
  unfold Spec.read_record. rewrite strip_app.
  remember (escape text ++ dq ++ ("}" ++ Spec.endOfRecord) ++ rest) as quoted eqn:Eq.
  replace (Spec.strip ("{" ++ dq ++ "done" ++ dq ++ ":true}" ++ Spec.endOfRecord)
             (("{" ++ dq ++ "content" ++ dq ++ ":" ++ dq) ++ quoted))
    with (@None string) by reflexivity.
  replace (Spec.strip ("{" ++ dq ++ "done" ++ dq ++ ": true}" ++ Spec.endOfRecord)
             (("{" ++ dq ++ "content" ++ dq ++ ":" ++ dq) ++ quoted))
    with (@None string) by reflexivity.
  rewrite strip_app. subst quoted.
  rewrite read_string_escape, strip_app. reflexivity.
Qed.

Lemma read_doneFrame (rest : string) :
  Spec.read_record (doneFrame ++ rest) = Some (Spec.Done, rest).
Proof. reflexivity. Qed.

Lemma read_doneLiteral (rest : string) :
  Spec.read_record (Interception.doneLiteral ++ rest) = Some (Spec.Done, rest).
Proof. reflexivity. Qed.

Lemma spells_read (chunk : string) (r : Spec.record) (rest : string) :
  spells chunk r -> Spec.read_record (chunk ++ rest) = Some (r, rest).
Proof.
  destruct 1;
    [apply read_contentFrame | apply read_doneFrame | apply read_doneLiteral].
Qed.

Lemma spells_not_empty (chunk : string) (r : Spec.record) :
  spells chunk r -> exists c tail, chunk = String c tail.
Proof. destruct 1; eexists; eexists; reflexivity. Qed.

(** Chunks that spell records read back as these records, whenever the
    fuel covers their number. *)
Lemma read_records_spelled (chunks : list string) (rs : list Spec.record) :
  Forall2 spells chunks rs ->
  forall fuel, List.length rs <= fuel ->
  Spec.read_records fuel (Spec.cat chunks) = Some rs.
Proof.
  induction 1 as [|chunk r chunks rs Hs _ IH]; intros fuel Hfuel.
  - destruct fuel; reflexivity.
  - destruct fuel as [|fuel]; [simpl in Hfuel; lia|].
    simpl Spec.cat.
    destruct (spells_not_empty _ _ Hs) as (c & tail & Ec).
    pose proof (spells_read _ _ (Spec.cat chunks) Hs) as Hr.
    rewrite Ec in *. simpl Spec.read_records. simpl append in Hr.
    rewrite Hr, IH by (simpl in Hfuel; lia). reflexivity.
Qed.

Lemma length_cat_spelled (chunks : list string) (rs : list Spec.record) :
  Forall2 spells chunks rs -> List.length rs <= String.length (Spec.cat chunks).
Proof.
  induction 1 as [|chunk r chunks rs Hs _ IH]; [apply Nat.le_refl|].
  destruct (spells_not_empty _ _ Hs) as (c & tail & ->).
  simpl. rewrite length_append. lia.
Qed.

(** The records of a stream of chunks that spell records. *)
Lemma records_of_stream (chunks : list string) (rs : list Spec.record) :
  Forall2 spells chunks rs -> Spec.records_of (Stream chunks) = Some rs.
Proof.
  intro H. apply read_records_spelled; [exact H|].
  now apply length_cat_spelled.
Qed.

(** The same for a text made of these chunks. *)
Lemma records_of_text (chunks : list string) (rs : list Spec.record) :
  Forall2 spells chunks rs -> Spec.records_of (Text (Spec.cat chunks)) = Some rs.
Proof.
  intro H. apply read_records_spelled; [exact H|].
  now apply length_cat_spelled.
Qed.

End Reading.

(** ** The two emission loops *)

Section Emission.

Lemma nth_after (pre ws : list string) (j : nat) :
  nth (List.length pre + j) (pre ++ ws)%list "" = nth j ws "".
Proof.
  rewrite app_nth2 by lia. f_equal. lia.
Qed.

(** The fragments of the listener loop are the words with a trailing space,
    the last one excepted. *)
Lemma wordChunks_trailing (ws pre : list string) :
  map (Listener.wordChunk (pre ++ ws)%list) (seq (List.length pre) (List.length ws))
  = Spec.trailing ws.
Proof.
  revert pre; induction ws as [|w ws IH]; intro pre; [reflexivity|].
  simpl seq. simpl map.
  assert (Hrest :
    map (Listener.wordChunk (pre ++ w :: ws)%list)
        (seq (S (List.length pre)) (List.length ws)) = Spec.trailing ws).
  { specialize (IH (pre ++ [w])%list).
    rewrite <- app_assoc, length_app in IH. simpl in IH.
    now rewrite Nat.add_1_r in IH. }
  rewrite Hrest.
  unfold Listener.wordChunk at 1.
  replace (List.length pre) with (List.length pre + 0) at 1 by lia.
  rewrite nth_after. simpl nth.
  rewrite length_app. simpl List.length.
  destruct ws as [|x ws].
  - simpl. replace (List.length pre <? List.length pre + 1 - 1)%nat with false
      by (symmetry; apply Nat.ltb_ge; lia).
    now rewrite append_nil_r.
  - replace (List.length pre <? List.length pre + S (List.length (x :: ws)) - 1)%nat
      with true by (symmetry; apply Nat.ltb_lt; simpl; lia).
    reflexivity.
Qed.

(** The fragments of the interception timer are the first piece, then each
    piece after a space. *)
Lemma chunkContents_later (ws pre : list string) :
  pre <> [] ->
  map (Interception.chunkContent (pre ++ ws)%list)
      (seq (List.length pre) (List.length ws))
  = map (fun x => " " ++ x) ws.
Proof.
  revert pre; induction ws as [|w ws IH]; intros pre Hpre; [reflexivity|].
  simpl seq. simpl map. f_equal.
  - unfold Interception.chunkContent.
    destruct (List.length pre =? 0)%nat eqn:E0.
    + apply Nat.eqb_eq in E0. now destruct pre.
    + rewrite <- (Nat.add_0_r (List.length pre)), nth_after. reflexivity.
  - specialize (IH (pre ++ [w])%list).
    rewrite <- app_assoc, length_app in IH. simpl in IH.
    rewrite Nat.add_1_r in IH. apply IH.
    now destruct pre.
Qed.

Lemma chunkContents_leading (ws : list string) :
  map (Interception.chunkContent ws) (seq 0 (List.length ws)) = leading ws.
Proof.
  destruct ws as [|w ws]; [reflexivity|].
  simpl seq. simpl map. unfold leading. f_equal.
  apply (chunkContents_later ws [w]). discriminate.
Qed.

(** The listener loop, from any point of its run. *)
Lemma writeWords_from (words : list string) (fuel i : nat) (written : list string) :
  List.length words - i <= fuel ->
  Listener.writeWords words fuel i written
  = (written ++ map (fun j => contentFrame (Listener.wordChunk words j))
                    (seq i (List.length words - i)))%list.
Proof.
  revert i written; induction fuel as [|fuel IH]; intros i written Hfuel.
  - replace (List.length words - i) with 0 by lia.
    simpl. now rewrite app_nil_r.
  - simpl. destruct (i <? List.length words)%nat eqn:Ei.
    + apply Nat.ltb_lt in Ei.
      rewrite IH by lia.
      replace (List.length words - i) with (S (List.length words - S i)) by lia.
      simpl seq. simpl map. rewrite <- app_assoc. reflexivity.
    + apply Nat.ltb_ge in Ei.
      replace (List.length words - i) with 0 by lia.
      simpl. now rewrite app_nil_r.
Qed.

(** What the listener writes for a reply. *)
Lemma listener_stream (reply : string) :
  Listener.streamOf reply
  = (map contentFrame (Spec.trailing (split " " reply)) ++ [doneFrame])%list.
Proof.
  unfold Listener.streamOf. cbv zeta.
  rewrite writeWords_from by lia.
  rewrite Nat.sub_0_r. simpl app at 1.
  rewrite <- (wordChunks_trailing (split " " reply) []).
  rewrite map_map. reflexivity.
Qed.

Lemma tick_emits (chunks : list string) (i : nat) (out : list string) (c : bool) :
  i < List.length chunks ->
  Interception.tick chunks (Interception.mkStream i out c)
  = Interception.mkStream (S i)
      (out ++ [contentFrame (Interception.chunkContent chunks i)]) false.
Proof.
  intro Hi. unfold Interception.tick.
  cbn [Interception.counter Interception.enqueued].
  apply Nat.ltb_lt in Hi. rewrite Hi. reflexivity.
Qed.

Lemma tick_completes (chunks : list string) (i : nat) (out : list string) (c : bool) :
  List.length chunks <= i ->
  Interception.tick chunks (Interception.mkStream i out c)
  = Interception.mkStream i (out ++ [Interception.doneLiteral]) true.
Proof.
  intro Hi. unfold Interception.tick.
  cbn [Interception.counter Interception.enqueued].
  apply Nat.ltb_ge in Hi. rewrite Hi. reflexivity.
Qed.

Lemma run_step (chunks : list string) (fuel : nat) (st : Interception.stream_state) :
  Interception.run chunks (S fuel) st
  = if Interception.closed st then st
    else Interception.run chunks fuel (Interception.tick chunks st).
Proof. reflexivity. Qed.

Lemma run_closed (chunks : list string) (fuel : nat) (st : Interception.stream_state) :
  Interception.closed st = true -> Interception.run chunks fuel st = st.
Proof. intro H. destruct fuel; simpl; now rewrite H. Qed.

(** The interception timer, from any state that is still open. *)
Lemma run_from (chunks : list string) (fuel i : nat) (out : list string) :
  List.length chunks - i < fuel ->
  Interception.run chunks fuel (Interception.mkStream i out false)
  = Interception.mkStream (Nat.max i (List.length chunks))
      (out ++ map (fun j => contentFrame (Interception.chunkContent chunks j))
                  (seq i (List.length chunks - i))
           ++ [Interception.doneLiteral])
      true.
Proof.
  revert i out; induction fuel as [|fuel IH]; intros i out Hfuel; [lia|].
  rewrite run_step. cbn [Interception.closed].
  destruct (Nat.lt_ge_cases i (List.length chunks)) as [Hi|Hi].
  - rewrite tick_emits, IH by lia.
    replace (List.length chunks - i) with (S (List.length chunks - S i)) by lia.
    cbn [seq map]. rewrite <- app_assoc. cbn [app].
    f_equal. lia.
  - rewrite tick_completes, run_closed by (lia || reflexivity).
    replace (List.length chunks - i) with 0 by lia.
    cbn [seq map app]. f_equal. lia.
Qed.

(** The timer closes the stream, and no later firing adds to it. *)
Lemma run_closes (reply : string) (extra : nat) :
  let chunks := split " " reply in
  let final := Interception.run chunks (S (List.length chunks)) Interception.start in
  Interception.closed final = true /\
  Interception.run chunks (S (List.length chunks) + extra) Interception.start = final.
Proof.
  cbv zeta. unfold Interception.start.
  rewrite !run_from by lia.
  split; reflexivity.
Qed.

(** What the interception stream delivers for a reply. *)
Lemma interception_stream (reply : string) :
  Interception.streamOf reply
  = (map contentFrame (leading (split " " reply))
     ++ [Interception.doneLiteral])%list.
Proof.
  unfold Interception.streamOf, Interception.start. cbv zeta.
  rewrite run_from by lia.
  cbn [Interception.enqueued app]. rewrite Nat.sub_0_r.
  rewrite <- chunkContents_leading, map_map. reflexivity.
Qed.

End Emission.

(** ** The responses that carry a reply *)

Section Wire.

Variable JSON_parse : string -> result value.
Variable originalFetch : Interception.resource -> Interception.options -> response.
Variable typeErrorMessage : fault -> string.
Variable timestamp : string.

#[warnings="-notation-for-abbreviation"]
Local Notation answers :=
  (answers JSON_parse originalFetch typeErrorMessage timestamp).

Lemma answers_interception_deliver (resp : response) (reply : string) (s : bool) :
  answers ViaInterception resp reply s -> resp = Interception.deliver reply s.
Proof.
  inversion 1 as [u url o r s' Hurl Hform Hsel|]; subst.
  unfold Interception.fetch, Interception.serve. rewrite Hurl.
  destruct (Interception.body o) as [[entries|text|d]|];
    try discriminate Hform; rewrite Hsel; reflexivity.
Qed.

Lemma answers_listener_deliver (resp : response) (reply : string) (s : bool) :
  answers ViaListener resp reply s -> resp = Listener.deliver timestamp reply s.
Proof.
  inversion 1 as [|u req r s' Hsel]; subst.
  unfold Listener.chatRoute, Listener.chat. rewrite Hsel. reflexivity.
Qed.

Lemma spells_contents (frags : list string) (last : string) :
  spells last Spec.Done ->
  Forall2 spells (map contentFrame frags ++ [last])%list
                 (map Spec.Content frags ++ [Spec.Done])%list.
Proof.
  intro Hlast. induction frags as [|t frags IH]; simpl.
  - constructor; [exact Hlast | constructor].
  - constructor; [constructor | exact IH].
Qed.

(** The records of a streamed reply, on each path. *)
Lemma streamed_records (p : path) (resp : response) (reply : string) :
  answers p resp reply true ->
  Spec.records_of (payload resp)
  = Some (map Spec.Content
            (match p with
             | ViaInterception => leading (split " " reply)
             | ViaListener => Spec.trailing (split " " reply)
             end) ++ [Spec.Done])%list.
Proof.
  intro H. destruct p.
  - rewrite (answers_interception_deliver _ _ _ H).
    cbn [Interception.deliver payload].
    rewrite interception_stream.
    apply records_of_stream, spells_contents. apply spells_done_literal.
  - rewrite (answers_listener_deliver _ _ _ H).
    cbn [Listener.deliver payload].
    rewrite listener_stream.
    apply records_of_stream, spells_contents. apply spells_done.
Qed.

Lemma texts_contents (frags : list string) :
  Spec.texts (map Spec.Content frags ++ [Spec.Done])%list = frags.
Proof. induction frags as [|t frags IH]; simpl; [reflexivity | now rewrite IH]. Qed.

Lemma records_of_object (props : list (string * value)) :
  Spec.records_of (Text (JSON_stringify (JObj props))) = None.
Proof.
  change (JSON_stringify (JObj props))
    with (String "{" (join "," (map (fun kv : string * value =>
            let (k, x) := kv in quote k ++ ":" ++ JSON_stringify x) props) ++ "}")).
  reflexivity.
Qed.

(** C1, as the code has it: to a streaming request whose selected reply
    splits at its space characters into k pieces (empty pieces counted),
    each path sends exactly k + 1 records, k content records and then the
    completion record, and the texts of the content records, one after the
    other, are the reply. *)
Theorem streaming_round_trip (p : path) (resp : response) (reply : string) :
  answers p resp reply true ->
  exists recs frags,
    Spec.records_of (payload resp) = Some recs /\
    recs = (map Spec.Content frags ++ [Spec.Done])%list /\
    List.length recs = S (List.length (split " " reply)) /\
    List.length frags = List.length (split " " reply) /\
    Spec.cat frags = reply.
Proof.
  intro H. pose proof (streamed_records p resp reply H) as Hr.
  eexists; eexists; split; [exact Hr|]. split; [reflexivity|].
  rewrite length_app, length_map. simpl List.length.
  assert (Hlen : List.length
            (match p with
             | ViaInterception => leading (split " " reply)
             | ViaListener => Spec.trailing (split " " reply)
             end) = List.length (split " " reply))
    by (destruct p; [apply length_leading | apply length_trailing]).
  rewrite Hlen. repeat split; [lia|].
  destruct p; [rewrite cat_leading | rewrite cat_trailing];
    apply (join_split " " reply).
Qed.

(** C2, as the code has it: to a request that is not streaming, the
    interception path answers with a text in the event-stream framing made
    of two records, the whole reply and the completion; the listener path
    answers with one JSON object [{content, done, timestamp}], which is not
    in that framing. *)
Theorem non_streaming_reply (p : path) (resp : response) (reply : string) :
  answers p resp reply false ->
  match p with
  | ViaInterception =>
      status resp = 200 /\
      headers resp = Interception.eventStreamHeaders /\
      payload resp = Text (contentFrame reply ++ doneFrame) /\
      Spec.records_of (payload resp) = Some [Spec.Content reply; Spec.Done]
  | ViaListener =>
      resp = Listener.json 200 (JObj [("content", JStr reply);
                                      ("done", JBool true);
                                      ("timestamp", JStr timestamp)]) /\
      Spec.records_of (payload resp) = None
  end.
Proof.
  intro H. destruct p.
  - rewrite (answers_interception_deliver _ _ _ H).
    cbn [Interception.deliver status headers payload].
    assert (Hbody :
      "data: " ++ JSON_stringify (JObj [("content", JStr reply)]) ++ nl ++ nl ++
      "data: " ++ JSON_stringify (JObj [("done", JBool true)]) ++ nl ++ nl
      = Spec.cat [contentFrame reply; doneFrame]).
    { unfold contentFrame, doneFrame. cbn [Spec.cat].
      now rewrite append_nil_r, !append_assoc. }
    repeat split.
    + rewrite Hbody. cbn [Spec.cat]. now rewrite append_nil_r.
    + rewrite Hbody. apply records_of_text.
      apply Forall2_cons; [apply spells_content|].
      apply Forall2_cons; [apply spells_done | apply Forall2_nil].
  - rewrite (answers_listener_deliver _ _ _ H).
    cbn [Listener.deliver]. split; [reflexivity|].
    apply records_of_object.
Qed.

(** C3, as the code has it: the fragments of a streamed reply are its
    pieces between space characters; the listener path sends each piece
    followed by a space, the last one bare, and the interception path sends
    the first piece bare and each later piece preceded by a space. *)
Theorem fragment_spacing (p : path) (resp : response) (reply : string) :
  answers p resp reply true ->
  exists recs,
    Spec.records_of (payload resp) = Some recs /\
    List.last recs Spec.Done = Spec.Done /\
    Spec.texts recs =
      match p with
      | ViaInterception => leading (split " " reply)
      | ViaListener => Spec.trailing (split " " reply)
      end.
Proof.
  intro H. eexists. split; [exact (streamed_records p resp reply H)|].
  split; [apply last_last | apply texts_contents].
Qed.

End Wire.

(** ** Substrings *)

Section Includes.

Lemma prefix_refl (t : string) : String.prefix t t = true.
Proof.
  induction t as [|c t IH]; simpl; [reflexivity|].
  destruct (ascii_dec c c); [exact IH | congruence].
Qed.

Lemma prefix_app (t s b : string) :
  String.prefix t s = true -> String.prefix t (s ++ b) = true.
Proof.
  revert s; induction t as [|c t IH]; intros s H.
  - now destruct (s ++ b).
  - destruct s as [|d s]; simpl in *; [discriminate|].
    destruct (ascii_dec c d); [now apply IH | discriminate].
Qed.

Lemma includes_refl (t : string) : includes t t = true.
Proof.
  destruct t; cbn [includes]; unfold startsWith; now rewrite prefix_refl.
Qed.

Lemma includes_cons (c : ascii) (s t : string) :
  includes s t = true -> includes (String c s) t = true.
Proof. intro H. simpl. rewrite H. apply orb_true_r. Qed.

(** A substring of a text is a substring of any text around it. *)
Lemma includes_app_r (s b t : string) :
  includes s t = true -> includes (s ++ b) t = true.
Proof.
  induction s as [|c s IH]; intro H.
  - cbn [includes] in H. rewrite orb_false_r in H. unfold startsWith in H.
    destruct t; [|discriminate].
    destruct b; reflexivity.
  - cbn [includes] in H. apply orb_true_iff in H. destruct H as [H|H].
    + change (String c s ++ b) with (String c (s ++ b)).
      cbn [includes]. unfold startsWith in *.
      change (String c (s ++ b)) with (String c s ++ b).
      now rewrite (prefix_app _ _ b H).
    + change (String c s ++ b) with (String c (s ++ b)).
      apply includes_cons. now apply IH.
Qed.

Lemma includes_app_l (a s t : string) :
  includes s t = true -> includes (a ++ s) t = true.
Proof.
  intro H. induction a as [|c a IH]; [exact H|].
  simpl append. now apply includes_cons.
Qed.

Lemma includes_join (sep name : string) (names : list string) :
  In name names -> includes (join sep names) name = true.
Proof.
  induction names as [|n rest IH]; intro Hin; [destruct Hin|].
  destruct rest as [|m rest].
  - destruct Hin as [->|[]]. apply includes_refl.
  - rewrite join_cons by discriminate.
    destruct Hin as [->|Hin].
    + apply includes_app_r, includes_refl.
    + apply includes_app_l, includes_app_l. now apply IH.
Qed.

Lemma lower_char_fixed (c : ascii) :
  is_upper c = false -> lower_char c = c.
Proof. intro H. unfold lower_char. now rewrite H. Qed.

Lemma prefix_lower (t s : string) :
  String.prefix t s = true ->
  String.prefix (toLowerCase t) (toLowerCase s) = true.
Proof.
  revert s; induction t as [|c t IH]; intros s H.
  - now destruct s.
  - destruct s as [|d s]; simpl in *; [discriminate|].
    destruct (ascii_dec c d) as [->|]; [|discriminate].
    destruct (ascii_dec (lower_char d) (lower_char d)); [now apply IH | congruence].
Qed.

(** A text that contains a word contains it whatever the case of its
    letters is folded to. *)
Lemma includes_lower (s t : string) :
  includes s t = true -> includes (toLowerCase s) (toLowerCase t) = true.
Proof.
  induction s as [|c s IH]; intro H.
  - cbn [includes] in H. rewrite orb_false_r in H. unfold startsWith in H.
    cbn [toLowerCase includes]. rewrite orb_false_r. unfold startsWith.
    now apply (prefix_lower t "").
  - cbn [includes] in H. apply orb_true_iff in H. destruct H as [H|H].
    + cbn [toLowerCase includes]. unfold startsWith in *.
      apply (prefix_lower t (String c s)) in H. cbn [toLowerCase] in H.
      now rewrite H.
    + cbn [toLowerCase]. apply includes_cons. now apply IH.
Qed.

End Includes.

(** ** The random choice *)

Section Choice.

Local Open Scope N_scope.

Lemma size_span (p : N) :
  0 < N.size p - 53 ->
  2 ^ 52 * 2 ^ (N.size p - 53) <= p /\ p < 2 ^ 53 * 2 ^ (N.size p - 53).
Proof.
  intro Hk. assert (Hp : p <> 0) by (intros ->; simpl in Hk; lia).
  rewrite (N.size_log2 p Hp) in *.
  destruct (N.log2_spec p) as [Hlo Hhi]; [lia|].
  replace (N.succ (N.log2 p)) with (53 + (N.succ (N.log2 p) - 53)) in Hhi by lia.
  replace (N.log2 p) with (52 + (N.succ (N.log2 p) - 53)) in Hlo at 1 by lia.
  rewrite N.pow_add_r in Hlo, Hhi. split; assumption.
Qed.

Lemma size_small (p : N) : N.size p - 53 = 0 -> p < 2 ^ 53.
Proof.
  intro Hk. apply N.lt_le_trans with (2 ^ N.size p); [apply N.size_gt|].
  apply N.pow_le_mono_r; lia.
Qed.

Lemma size_mono (p1 p2 : N) : p1 <= p2 -> N.size p1 <= N.size p2.
Proof.
  intro H. destruct (N.eq_dec p1 0) as [->|H1]; [simpl; lia|].
  rewrite !N.size_log2 by lia. apply -> N.succ_le_mono.
  now apply N.log2_le_mono.
Qed.

(** What the rounding does, for a number of more than 53 bits: with
    [b] the weight of the last bit kept, the result is a multiple of [b]
    between the multiples around the number, no further from it than half
    of [b]. *)
Lemma round_spec (p : N) :
  let b := 2 ^ (N.size p - 53) in
  exists q r c,
    p = q * b + r /\ r < b /\ c <= 1 /\
    Random.roundTiesToEven p = (q + c) * b /\
    (c = 0 -> 2 * r <= b) /\ (c = 1 -> b <= 2 * r) /\
    (N.size p - 53 = 0 -> c = 0 /\ r = 0).
Proof.
  intro b. subst b. set (k := N.size p - 53).
  assert (Hb : 2 ^ k <> 0) by (apply N.pow_nonzero; lia).
  exists (p / 2 ^ k), (p mod 2 ^ k).
  pose proof (N.div_mod p (2 ^ k) Hb) as Hdiv.
  pose proof (N.mod_lt p (2 ^ k) Hb) as Hmod.
  unfold Random.roundTiesToEven. fold k.
  destruct (N.eqb_spec k 0) as [Hk|Hk].
  - exists 0. rewrite Hk in *. simpl (2 ^ 0) in *.
    rewrite N.mod_1_r, N.div_1_r in *. repeat split; lia.
  - assert (Hhalf : 2 ^ k = 2 * (2 ^ k / 2)).
    { replace k with (N.succ (k - 1)) by lia.
      rewrite N.pow_succ_r by lia.
      now rewrite (N.mul_comm 2 (2 ^ (k - 1))), N.div_mul, N.mul_comm by lia. }
    destruct (N.ltb_spec (p mod 2 ^ k) (2 ^ k / 2)) as [Hlt|Hge].
    + exists 0. repeat split; lia.
    + destruct (N.ltb_spec (2 ^ k / 2) (p mod 2 ^ k)) as [Hgt|Hle].
      * exists 1. repeat split; lia.
      * destruct (N.even (p / 2 ^ k)); [exists 0 | exists 1]; repeat split; lia.
Qed.

(** The product of a double below 1 and of [n], rounded, is below [n]. *)
Lemma round_below (m n : N) :
  m < 2 ^ 53 -> 0 < n -> Random.roundTiesToEven (m * n) < n * 2 ^ 53.
Proof.
  intros Hm Hn.
  destruct (round_spec (m * n)) as (q & r & c & Hp & Hr & Hc & HR & H0 & H1 & Hz).
  rewrite HR.
  destruct (N.eq_dec (N.size (m * n) - 53) 0) as [Hk|Hk].
  - destruct (Hz Hk) as [-> ->]. nia.
  - destruct (size_span (m * n)) as [Hlo _]; [lia|].
    set (b := 2 ^ (N.size (m * n) - 53)) in *.
    assert (Hbn : b < 2 * n) by nia.
    destruct (N.eq_dec c 0) as [->|Hc1]; [nia|].
    assert (c = 1) by lia. subst c. specialize (H1 eq_refl). nia.
Qed.

Lemma floor_times_lt (u : Random.draw) (n : nat) :
  (0 < n)%nat -> (Random.floor_times u n < n)%nat.
Proof.
  intro Hn. unfold Random.floor_times.
  assert (Hm : Random.significand u < 2 ^ 53)
    by (apply N.mod_lt; discriminate).
  pose proof (round_below (Random.significand u) (N.of_nat n) Hm ltac:(lia)) as HR.
  assert (Hs : 2 ^ 53 <= 2 ^ (53 + Random.scale u))
    by (apply N.pow_le_mono_r; lia).
  assert (Hdiv : Random.roundTiesToEven (Random.significand u * N.of_nat n)
                 / 2 ^ (53 + Random.scale u) < N.of_nat n).
  { apply N.Div0.div_lt_upper_bound. nia. }
  lia.
Qed.

(** Rounding keeps the order. *)
Lemma round_mono (p1 p2 : N) :
  p1 <= p2 -> Random.roundTiesToEven p1 <= Random.roundTiesToEven p2.
Proof.
  intro Hle. pose proof (size_mono p1 p2 Hle) as Hsize.
  destruct (round_spec p1) as (q1 & r1 & c1 & Hp1 & Hr1 & Hc1 & HR1 & A1 & B1 & Z1).
  destruct (round_spec p2) as (q2 & r2 & c2 & Hp2 & Hr2 & Hc2 & HR2 & A2 & B2 & Z2).
  destruct (N.eq_dec (N.size p1) (N.size p2)) as [E|NE].
  - rewrite E in *. set (b := 2 ^ (N.size p2 - 53)) in *.
    assert (Hb : 0 < b) by (apply N.neq_0_lt_0, N.pow_nonzero; lia).
    rewrite HR1, HR2.
    destruct (N.lt_trichotomy q1 q2) as [Hq|[Hq|Hq]].
    + assert ((q1 + 1) * b <= q2 * b) by (apply N.mul_le_mono_r; lia). nia.
    + subst q2. assert (r1 <= r2) by nia.
      destruct (N.eq_dec c1 0) as [->|]; [nia|].
      assert (c1 = 1) by lia; subst c1. specialize (B1 eq_refl).
      destruct (N.eq_dec c2 1) as [->|]; [lia|].
      assert (c2 = 0) by lia; subst c2. specialize (A2 eq_refl).
      assert (r1 = r2) by lia. subst r2.
      assert (Hpp : p1 = p2) by lia.
      assert (Random.roundTiesToEven p1 = Random.roundTiesToEven p2)
        by (f_equal; exact Hpp).
      lia.
    + assert ((q2 + 1) * b <= q1 * b) by (apply N.mul_le_mono_r; lia). nia.
  - assert (Hlt : N.size p1 < N.size p2) by lia.
    destruct (N.eq_dec (N.size p2 - 53) 0) as [K2|K2]; [lia|].
    destruct (size_span p2) as [Hlo2 _]; [lia|].
    set (b2 := 2 ^ (N.size p2 - 53)) in *.
    assert (Hq2 : 2 ^ 52 <= q2).
    { assert (Hb2 : 0 < b2) by (apply N.neq_0_lt_0, N.pow_nonzero; lia).
      destruct (N.le_gt_cases (2 ^ 52) q2) as [H|H]; [exact H|].
      assert ((q2 + 1) * b2 <= 2 ^ 52 * b2) by (apply N.mul_le_mono_r; lia). nia. }
    assert (Hlow : 2 ^ 52 * b2 <= Random.roundTiesToEven p2).
    { rewrite HR2. apply N.le_trans with (q2 * b2);
        [apply N.mul_le_mono_r; exact Hq2 | nia]. }
    apply N.le_trans with (2 ^ 52 * b2); [|exact Hlow].
    destruct (N.eq_dec (N.size p1 - 53) 0) as [K1|K1].
    + destruct (Z1 K1) as [-> ->]. rewrite HR1.
      pose proof (size_small p1 K1) as Hs.
      assert (2 <= b2).
      { subst b2. replace (N.size p2 - 53) with (N.succ (N.size p2 - 54)) by lia.
        rewrite N.pow_succ_r by lia.
        assert (0 < 2 ^ (N.size p2 - 54)) by (apply N.neq_0_lt_0, N.pow_nonzero; lia).
        lia. }
      rewrite K1 in *. simpl (2 ^ 0) in *. nia.
    + destruct (size_span p1) as [_ Hhi1]; [lia|].
      set (b1 := 2 ^ (N.size p1 - 53)) in *.
      assert (Hb1 : 0 < b1) by (apply N.neq_0_lt_0, N.pow_nonzero; lia).
      assert (Hbb : 2 * b1 <= b2).
      { subst b1 b2.
        replace (N.size p2 - 53) with (N.succ (N.size p1 - 53) + (N.size p2 - N.size p1 - 1)) by lia.
        rewrite N.pow_add_r, N.pow_succ_r by lia.
        assert (0 < 2 ^ (N.size p2 - N.size p1 - 1))
          by (apply N.neq_0_lt_0, N.pow_nonzero; lia).
        nia. }
      assert (Hq1 : q1 + 1 <= 2 ^ 53).
      { destruct (N.le_gt_cases (q1 + 1) (2 ^ 53)) as [H|H]; [exact H|].
        assert (2 ^ 53 * b1 <= q1 * b1) by (apply N.mul_le_mono_r; lia). nia. }
      rewrite HR1.
      apply N.le_trans with ((q1 + 1) * b1); [apply N.mul_le_mono_r; lia|].
      apply N.le_trans with (2 ^ 53 * b1); [apply N.mul_le_mono_r; exact Hq1|].
      change (2 ^ 53) with (2 ^ 52 * 2). nia.
Qed.

(** Among the equally spaced draws the index grows with the draw. *)
Lemma floor_times_mono (n : nat) (k1 k2 : N) :
  k1 <= k2 -> k2 < 2 ^ 53 ->
  (Random.floor_times (Random.mkDraw k1 0) n
   <= Random.floor_times (Random.mkDraw k2 0) n)%nat.
Proof.
  intros Hle Hk2. unfold Random.floor_times, Random.significand, Random.scale.
  cbn [Random.mantissa Random.shift].
  rewrite !N.mod_small by lia.
  assert (H : Random.roundTiesToEven (k1 * N.of_nat n)
              <= Random.roundTiesToEven (k2 * N.of_nat n))
    by (apply round_mono, N.mul_le_mono_r, Hle).
  apply (N.Div0.div_le_mono _ _ (2 ^ (53 + N.of_nat (0 mod 1022)))) in H.
  lia.
Qed.

Lemma pick_In (u : Random.draw) (arr : list string) :
  arr <> [] -> In (Random.pick u arr) arr.
Proof.
  intro H. apply nth_In, floor_times_lt.
  destruct arr; [congruence | simpl; lia].
Qed.

Lemma run_of (bounds : list N) (k : N) (n : nat) :
  (nth 0 bounds 0 <= k < nth n bounds 0)%N ->
  exists j, (j < n)%nat /\ (nth j bounds 0 <= k < nth (S j) bounds 0)%N.
Proof.
  induction n as [|n IH]; intro H; [lia|].
  destruct (N.le_gt_cases (nth n bounds 0%N) k) as [Hn|Hn].
  - exists n. split; [lia|]. lia.
  - destruct IH as (j & Hj & Hrun); [lia|]. exists j. split; [lia | exact Hrun].
Qed.

Lemma bounds_grow (bounds : list N) (n : nat) :
  (forall i, (i < n)%nat -> (nth i bounds 0 < nth (S i) bounds 0)%N) ->
  forall j, (j <= n)%nat -> (nth j bounds 0 <= nth n bounds 0)%N.
Proof.
  intros Hstep. induction n as [|n IH]; intros j Hj.
  - replace j with 0%nat by lia. lia.
  - destruct (Nat.eq_dec j (S n)) as [->|Hne]; [lia|].
    apply N.le_trans with (nth n bounds 0%N).
    + apply IH; [intros i Hi; apply Hstep; lia | lia].
    + apply N.lt_le_incl, Hstep. lia.
Qed.

(** Runs whose ends are checked are the runs of the selection. *)
Lemma runs_checked_sound (n : nat) (bounds : list N) :
  runs_checked n bounds = true -> selects_by_runs n bounds.
Proof.
  unfold runs_checked. intro H.
  apply andb_true_iff in H. destruct H as [H Hall].
  apply andb_true_iff in H. destruct H as [H Hn].
  apply andb_true_iff in H. destruct H as [Hlen H0].
  apply Nat.eqb_eq in Hlen. apply N.eqb_eq in H0, Hn.
  rewrite forallb_forall in Hall.
  assert (Hchecks : forall j, (j < n)%nat ->
    (nth j bounds 0 < nth (S j) bounds 0)%N /\
    Random.floor_times (grid (nth j bounds 0%N)) n = j /\
    Random.floor_times (grid (nth (S j) bounds 0 - 1)%N) n = j).
  { intros j Hj. specialize (Hall j ltac:(apply in_seq; lia)).
    apply andb_true_iff in Hall. destruct Hall as [Hall Hlast].
    apply andb_true_iff in Hall. destruct Hall as [Hlt Hfirst].
    apply N.ltb_lt in Hlt. apply Nat.eqb_eq in Hfirst, Hlast. now repeat split. }
  assert (Hgrow : forall j, (j <= n)%nat -> (nth j bounds 0 <= nth n bounds 0)%N)
    by (apply bounds_grow; intros i Hi; apply Hchecks, Hi).
  assert (Hrun : forall j k, (j < n)%nat -> (k < 2 ^ 53)%N ->
            (nth j bounds 0 <= k < nth (S j) bounds 0)%N ->
            Random.floor_times (grid k) n = j).
  { intros j k Hj Hk [Hlo Hhi].
    destruct (Hchecks j Hj) as (Hlt & Hfirst & Hlast).
    pose proof (Hgrow (S j) ltac:(lia)) as Hend.
    pose proof (floor_times_mono n (nth j bounds 0%N) k Hlo Hk) as H1.
    pose proof (floor_times_mono n k (nth (S j) bounds 0 - 1)%N
                  ltac:(lia) ltac:(lia)) as H2.
    unfold grid in *. lia. }
  intros k i Hk. split.
  - intro Hi.
    destruct (run_of bounds k n) as (j & Hj & Hjrun); [lia|].
    rewrite <- Hi, (Hrun j k Hj Hk Hjrun). exact Hjrun.
  - intro Hirun.
    destruct (Nat.lt_ge_cases i n) as [Hi|Hi]; [now apply Hrun|].
    exfalso.
    destruct (Nat.eq_dec i n) as [->|Hne]; [lia|].
    rewrite (nth_overflow bounds 0%N) in Hirun by lia.
    rewrite (nth_overflow bounds 0%N) in Hirun by lia. lia.
Qed.

Lemma five_runs : selects_by_runs 5 fiveRuns /\ evenly_cut 5 fiveRuns.
Proof.
  split; [apply runs_checked_sound; vm_compute; reflexivity|].
  intros i j Hi Hj.
  do 5 (destruct i as [|i]; [do 5 (destruct j as [|j]; [vm_compute; discriminate|]); lia|]).
  lia.
Qed.

Lemma seven_runs : selects_by_runs 7 sevenRuns /\ evenly_cut 7 sevenRuns.
Proof.
  split; [apply runs_checked_sound; vm_compute; reflexivity|].
  intros i j Hi Hj.
  do 7 (destruct i as [|i]; [do 7 (destruct j as [|j]; [vm_compute; discriminate|]); lia|]).
  lia.
Qed.

End Choice.

(** ** Normalization and selection *)

Section Selection.

Variable JSON_parse : string -> result value.
Variable originalFetch : Interception.resource -> Interception.options -> response.
Variable typeErrorMessage : fault -> string.
Variable timestamp : string.

(** *** The streaming flag *)

(** On the listener path the flag is set by the boolean [true] and by the
    text [true], and by nothing else. *)
Lemma listener_flag (fields : list (string * value)) :
  Listener.isStreaming fields = true <->
  assoc "stream" fields = Some (JBool true) \/
  assoc "stream" fields = Some (JStr "true").
Proof.
  unfold Listener.isStreaming.
  destruct (assoc "stream" fields) as [[|b|n|s|l|o]|]; split;
    try (intros [H|H]; discriminate H); try discriminate.
  - destruct b; [now left | discriminate].
  - intros [H|H]; [now inversion H | discriminate].
  - rewrite orb_false_r. intro H. apply String.eqb_eq in H. subst. now right.
  - intros [H|H]; [discriminate | now inversion H].
Qed.

(** On the interception path the flag is the truthiness of [data.stream]. *)
Lemma interception_flag (u : Random.draw)
  (b : option Interception.request_body) (reply : string) (s : bool) :
  Interception.selected JSON_parse u b = Ok (reply, s) ->
  exists st,
    get_prop (Some (fst (Interception.parseBody JSON_parse b))) "stream" = Ok st /\
    s = truthy st.
Proof.
  unfold Interception.selected.
  destruct (Interception.parseBody JSON_parse b) as [data messages].
  destruct (Interception.userMessageOf messages) as [um|]; [|discriminate].
  cbn [bind].
  destruct (Interception.generateResponse u um) as [r|]; [|discriminate].
  cbn [bind fst].
  destruct (get_prop (Some data) "stream") as [st|]; [|discriminate].
  cbn [bind]. intro H. inversion H. now exists st.
Qed.

(** *** The file branch *)

Lemma listener_names_file (files : list Listener.file) (f : Listener.file) :
  In f files ->
  includes (Listener.fileAcknowledgment files) (Listener.originalname f) = true.
Proof.
  intro Hin. unfold Listener.fileAcknowledgment.
  do 3 apply includes_app_l. apply includes_app_r.
  apply includes_join. now apply in_map.
Qed.

Lemma interception_names_file (files : list (option string)) (name : string) :
  In (Some name) files ->
  includes (Interception.fileAcknowledgment files) name = true.
Proof.
  intro Hin. unfold Interception.fileAcknowledgment.
  apply includes_app_l, includes_app_r. apply includes_join.
  unfold Interception.join_names.
  now apply (in_map (fun o => match o with Some n => n | None => "" end)
               files (Some name)).
Qed.

Lemma fetch_form (u : Random.draw) (url : Interception.resource)
  (o : Interception.options) (entries : list (string * Interception.form_value)) :
  Interception.isApiCall url = true ->
  Interception.body o = Some (Interception.FormData entries) ->
  Interception.fetch JSON_parse originalFetch u url (Some o)
  = Interception.formResponse
      (if (0 <? List.length (Interception.form_files entries))%nat
       then Interception.fileAcknowledgment (Interception.form_files entries)
       else Random.pick u Interception.mockResponses).
Proof.
  intros Hurl Hbody.
  unfold Interception.fetch, Interception.serve. rewrite Hurl, Hbody.
  destruct (0 <? List.length (Interception.form_files entries))%nat; reflexivity.
Qed.

Lemma listener_last_message (u : Random.draw) (req : Listener.request)
  (msgs : list value) (props : list (string * value)) (m : string) :
  Listener.messagesOf JSON_parse (Listener.body req) = Ok (JArr msgs) ->
  List.last (map Some msgs) None = Some (JObj props) ->
  assoc "content" props = Some (JStr m) ->
  Listener.selected JSON_parse u req
  = bind (Listener.respond u (Some (JStr m)) (Listener.files req))
         (fun response => Ok (response, Listener.isStreaming (Listener.body req))).
Proof.
  intros Hm Hlast Hc. unfold Listener.selected. rewrite Hm.
  cbn [bind Listener.lengthOf].
  unfold Listener.userMessageOf. cbn [js_last]. rewrite Hlast.
  cbn [truthy get_prop bind]. rewrite Hc. reflexivity.
Qed.

(** C5: when the last message contains [file], whatever the case of its
    letters and whatever else it contains (a code keyword for one), and
    the request carries attachments, the listener path selects the file
    acknowledgment, which is not the code example and names every
    attachment; the interception path answers a [FormData] that carries
    attachments with its file acknowledgment, which is none of the code
    examples and names every attached file. *)
Theorem file_branch_first :
  (forall u req msgs props m,
     Listener.messagesOf JSON_parse (Listener.body req) = Ok (JArr msgs) ->
     List.last (map Some msgs) None = Some (JObj props) ->
     assoc "content" props = Some (JStr m) ->
     includes (toLowerCase m) "file" = true ->
     includes (toLowerCase m) "code" = true ->
     Listener.files req <> [] ->
     Listener.selected JSON_parse u req
       = Ok (Listener.fileAcknowledgment (Listener.files req),
             Listener.isStreaming (Listener.body req)) /\
     Listener.fileAcknowledgment (Listener.files req) <> Listener.codeResponse /\
     forall f, In f (Listener.files req) ->
       includes (Listener.fileAcknowledgment (Listener.files req))
                (Listener.originalname f) = true)
  /\
  (forall u url o entries,
     Interception.isApiCall url = true ->
     Interception.body o = Some (Interception.FormData entries) ->
     Interception.form_files entries <> [] ->
     Interception.fetch JSON_parse originalFetch u url (Some o)
       = Interception.formResponse
           (Interception.fileAcknowledgment (Interception.form_files entries)) /\
     ~ In (Interception.fileAcknowledgment (Interception.form_files entries))
          Interception.codeExamples /\
     forall name, In (Some name) (Interception.form_files entries) ->
       includes (Interception.fileAcknowledgment (Interception.form_files entries))
                name = true).
Proof.
  split.
  - intros u req msgs props m Hm Hlast Hc Hfile _ Hfiles.
    split; [|split].
    + rewrite (listener_last_message u req msgs props m Hm Hlast Hc).
      unfold Listener.respond. cbn [Listener.lowerOf bind]. rewrite Hfile.
      destruct (Listener.files req); [congruence | reflexivity].
    + unfold Listener.fileAcknowledgment, Listener.codeResponse.
      cbn [append]. discriminate.
    + intros f Hin. now apply listener_names_file.
  - intros u url o entries Hurl Hbody Hfiles.
    split; [|split].
    + rewrite (fetch_form u url o entries Hurl Hbody).
      destruct (Interception.form_files entries); [congruence | reflexivity].
    + unfold Interception.fileAcknowledgment, Interception.codeExamples.
      cbn [append In]. intros [H|[H|[H|[]]]]; discriminate H.
    + intros name Hin. now apply interception_names_file.
Qed.

End Selection.

(** ** Malformed requests, empty histories, other calls *)

Section Requests.

Variable JSON_parse : string -> result value.
Variable originalFetch : Interception.resource -> Interception.options -> response.
Variable typeErrorMessage : fault -> string.
Variable timestamp : string.

(** The interception path recovers from a body that does not parse: the
    reply is the one of an empty history, and it is not streamed. *)
Lemma interception_recovers (u : Random.draw) (url : Interception.resource)
  (o : Interception.options) (text : string) (e : js_error) :
  Interception.isApiCall url = true ->
  Interception.body o = Some (Interception.BodyString text) ->
  JSON_parse text = Throw e ->
  Interception.fetch JSON_parse originalFetch u url (Some o)
  = Interception.deliver (Random.pick u Interception.mockResponses) false.
Proof.
  intros Hurl Hbody Hparse.
  unfold Interception.fetch, Interception.serve, Interception.selected,
    Interception.parseBody.
  rewrite Hurl, Hbody, Hparse. reflexivity.
Qed.

(** C6 on the listener path: a [messages] field that does not parse ends
    the request with the status 500 and the text of the parse error. *)
Theorem listener_fails_on_unparseable_messages (u : Random.draw)
  (req : Listener.request) (text : string) (e : js_error) :
  assoc "messages" (Listener.body req) = Some (JStr text) ->
  text <> "" ->
  JSON_parse text = Throw e ->
  Listener.chatRoute JSON_parse typeErrorMessage timestamp u req
  = Listener.json 500
      (JObj [("error", JStr "Internal server error");
             ("message", JStr (Listener.messageOf typeErrorMessage e))]).
Proof.
  intros Hm Hne Hparse.
  unfold Listener.chatRoute, Listener.chat, Listener.selected, Listener.messagesOf.
  rewrite Hm. cbn [truthy].
  apply String.eqb_neq in Hne. rewrite Hne. cbn [negb].
  rewrite Hparse. reflexivity.
Qed.

Lemma uploadAny_rejects (pre : list Listener.file) (f : Listener.file)
  (rest : list Listener.file) (seen : nat) :
  seen + List.length pre < Listener.filesLimit ->
  Forall accepted pre ->
  existsb (String.eqb (Listener.mimetype f)) Listener.allowedTypes = false ->
  Listener.uploadAny seen (pre ++ f :: rest)
  = Throw (Error ("File type " ++ Listener.mimetype f ++ " not allowed")).
Proof.
  revert seen; induction pre as [|g pre IH]; intros seen Hseen Hpre Hnot.
  - cbn [app Listener.uploadAny].
    replace (Listener.filesLimit <=? seen)%nat with false
      by (symmetry; apply Nat.leb_gt; simpl in Hseen; lia).
    unfold Listener.fileFilter. rewrite Hnot. reflexivity.
  - inversion Hpre as [|g' pre' [Htype Hsize] Hrest]; subst.
    cbn [app Listener.uploadAny].
    replace (Listener.filesLimit <=? seen)%nat with false
      by (symmetry; apply Nat.leb_gt; simpl in Hseen; lia).
    unfold Listener.fileFilter at 1. rewrite Htype. cbn [bind].
    replace (Listener.fileSizeLimit <? Listener.size g)%N with false
      by (symmetry; apply N.ltb_ge; exact Hsize).
    rewrite IH by (simpl in Hseen; try lia; assumption). reflexivity.
Qed.

(** C7 on the code: the first file whose type is not allowed, after files
    that the upload accepts and within the limit on their number, ends the
    request in the error middleware, before the route runs, with the
    status 500; the message names the type. *)
Theorem unsupported_type_is_server_error (u : Random.draw)
  (fields : list (string * value)) (pre : list Listener.file)
  (f : Listener.file) (rest : list Listener.file) :
  List.length pre < Listener.filesLimit ->
  Forall accepted pre ->
  existsb (String.eqb (Listener.mimetype f)) Listener.allowedTypes = false ->
  Listener.post JSON_parse typeErrorMessage timestamp u fields (pre ++ f :: rest)
  = Listener.json 500
      (JObj [("error", JStr "Server error");
             ("message", JStr ("File type " ++ Listener.mimetype f ++ " not allowed"))])
  /\ includes ("File type " ++ Listener.mimetype f ++ " not allowed")
              (Listener.mimetype f) = true.
Proof.
  intros Hlen Hpre Hnot. split.
  - unfold Listener.post.
    rewrite (uploadAny_rejects pre f rest 0) by (simpl; assumption).
    reflexivity.
  - apply includes_app_l, includes_app_r, includes_refl.
Qed.

(** *** The empty history *)

Lemma interception_empty_history (u : Random.draw) (text : string)
  (props : list (string * value)) :
  JSON_parse text = Ok (JObj props) ->
  assoc "messages" props = Some (JArr []) ->
  Interception.selected JSON_parse u (Some (Interception.BodyString text))
  = Ok (Random.pick u Interception.mockResponses, truthy (assoc "stream" props)).
Proof.
  intros Hparse Hm.
  unfold Interception.selected, Interception.parseBody.
  rewrite Hparse. cbn [get_prop]. rewrite Hm. reflexivity.
Qed.

Lemma listener_empty_history (u : Random.draw) (req : Listener.request) :
  assoc "messages" (Listener.body req) = Some (JArr []) ->
  Listener.selected JSON_parse u req
  = Ok (Listener.getRandomResponse u, Listener.isStreaming (Listener.body req)).
Proof.
  intro Hm. unfold Listener.selected, Listener.messagesOf.
  rewrite Hm. reflexivity.
Qed.

(** C8, as the code has it: with an empty array of messages the
    interception path takes the text [Hello] for the message and the
    listener path the empty text; on both no keyword matches and the reply
    is the entry of the general responses at the index
    [Math.floor(Math.random() * length)], which is in range.  The choice
    is uniform: the 2^53 equally spaced draws fall into one run for each
    entry, the draws of a run are those that select its entry, and no run
    is longer than another by more than one draw. *)
Theorem empty_history_default :
  (forall u text props,
     JSON_parse text = Ok (JObj props) ->
     assoc "messages" props = Some (JArr []) ->
     Interception.userMessageOf (JArr []) = Ok (Some (JStr "Hello")) /\
     Interception.selected JSON_parse u (Some (Interception.BodyString text))
       = Ok (nth (Random.floor_times u (List.length Interception.mockResponses))
                 Interception.mockResponses "",
             truthy (assoc "stream" props)) /\
     Random.floor_times u (List.length Interception.mockResponses)
       < List.length Interception.mockResponses)
  /\
  (forall u req,
     assoc "messages" (Listener.body req) = Some (JArr []) ->
     Listener.userMessageOf (JArr []) = Ok (Some (JStr "")) /\
     Listener.selected JSON_parse u req
       = Ok (nth (Random.floor_times u (List.length Listener.mockResponses))
                 Listener.mockResponses "",
             Listener.isStreaming (Listener.body req)) /\
     Random.floor_times u (List.length Listener.mockResponses)
       < List.length Listener.mockResponses)
  /\
  (selects_by_runs (List.length Interception.mockResponses) fiveRuns /\
   evenly_cut (List.length Interception.mockResponses) fiveRuns)
  /\
  (selects_by_runs (List.length Listener.mockResponses) sevenRuns /\
   evenly_cut (List.length Listener.mockResponses) sevenRuns).
Proof.
  split; [|split; [|split]].
  - intros u text props Hparse Hm. split; [reflexivity|]. split.
    + now apply interception_empty_history.
    + apply floor_times_lt. simpl. lia.
  - intros u req Hm. split; [reflexivity|]. split.
    + now apply listener_empty_history.
    + apply floor_times_lt. simpl. lia.
  - exact five_runs.
  - exact seven_runs.
Qed.

(** *** Calls to other addresses *)

(** A call that [isApiCall] does not match is the call of the original
    [fetch] with the same address and the same options. *)
Lemma pass_through (u : Random.draw) (url : Interception.resource)
  (opts : option Interception.options) :
  Interception.isApiCall url = false ->
  Interception.fetch JSON_parse originalFetch u url opts
  = originalFetch url (match opts with
                       | Some o => o
                       | None => Interception.no_options
                       end).
Proof.
  intro H. unfold Interception.fetch. now rewrite H.
Qed.

(** *** Multipart requests on the interception path *)

Lemma form_files_filter (entries : list (string * Interception.form_value)) :
  Interception.form_files entries
  = map (fun e => Interception.entry_name (snd e))
        (filter (fun e => startsWith (fst e) "file_") entries).
Proof.
  induction entries as [|[key v] entries IH]; [reflexivity|].
  cbn [Interception.form_files filter fst].
  destruct (startsWith key "file_"); cbn [map snd]; now rewrite IH.
Qed.

(** An entry whose key does not start with [file_] ([messages] and [stream]
    among them) has no part in the files. *)
Lemma form_files_skip (pre post : list (string * Interception.form_value))
  (key : string) (v : Interception.form_value) :
  startsWith key "file_" = false ->
  Interception.form_files (pre ++ (key, v) :: post)
  = Interception.form_files (pre ++ post).
Proof.
  intro H. rewrite !form_files_filter, !filter_app.
  cbn [filter fst]. now rewrite H.
Qed.

(** C10: a chat call whose body is a [FormData] gets the status 200, the
    content type [application/json] and one JSON text
    [{choices: [{message: {content}}]}], which is not in the event-stream
    framing; the content is the file acknowledgment when there are files
    and a general response otherwise; and two such calls with the same
    files get the same response, whatever their other entries, their
    options and the parser are. *)
Theorem form_data_reply (u : Random.draw) (url : Interception.resource)
  (o : Interception.options) (entries : list (string * Interception.form_value)) :
  Interception.isApiCall url = true ->
  Interception.body o = Some (Interception.FormData entries) ->
  let files := Interception.form_files entries in
  let text := if (0 <? List.length files)%nat
              then Interception.fileAcknowledgment files
              else Random.pick u Interception.mockResponses in
  let resp := Interception.fetch JSON_parse originalFetch u url (Some o) in
  resp = {| status := 200;
            headers := [("Content-Type", "application/json")];
            payload := Text (JSON_stringify
              (JObj [("choices",
                 JArr [JObj [("message", JObj [("content", JStr text)])]])])) |}
  /\ Spec.records_of (payload resp) = None
  /\ (files = [] -> In text Interception.mockResponses)
  /\ forall parse' url' o' entries',
       Interception.isApiCall url' = true ->
       Interception.body o' = Some (Interception.FormData entries') ->
       Interception.form_files entries' = files ->
       Interception.fetch parse' originalFetch u url' (Some o') = resp.
Proof.
  intros Hurl Hbody files text resp.
  assert (Hresp : resp = Interception.formResponse text)
    by (apply fetch_form; assumption).
  split; [exact Hresp|]. split; [|split].
  - rewrite Hresp. apply records_of_object.
  - intro Hnil. subst text. rewrite Hnil. cbn [List.length Nat.ltb Nat.leb].
    apply pick_In. discriminate.
  - intros parse' url' o' entries' Hurl' Hbody' Hfiles.
    rewrite Hresp. subst text files. rewrite <- Hfiles.
    now apply fetch_form.
Qed.

End Requests.

(** ** The theorems at concrete requests *)

Import Example.

(** C1 as it is worded fails: the listener path streams the markdown
    reply, which has 32 words between white space, in 26 records and not
    in 33. *)
Lemma whitespace_words_miscount :
  Listener.selected parse first markdownAsk = Ok (Listener.markdownResponse, true) /\
  List.length (Spec.words Listener.markdownResponse) = 32 /\
  exists recs,
    Spec.records_of
      (payload (Listener.chatRoute parse typeErrorText clock first markdownAsk))
    = Some recs /\
    List.length recs = 26 /\
    List.length recs <> S (List.length (Spec.words Listener.markdownResponse)).
Proof.
  split; [reflexivity|]. split; [reflexivity|].
  eexists. split; [vm_compute; reflexivity|].
  split; [reflexivity | vm_compute; discriminate].
Qed.

Lemma streaming_round_trip_witness :
  answers parse network typeErrorText clock ViaListener
    (Listener.chatRoute parse typeErrorText clock first markdownAsk)
    Listener.markdownResponse true /\
  exists recs frags,
    Spec.records_of
      (payload (Listener.chatRoute parse typeErrorText clock first markdownAsk))
    = Some recs /\
    recs = (map Spec.Content frags ++ [Spec.Done])%list /\
    List.length recs = S (List.length (split " " Listener.markdownResponse)) /\
    List.length frags = List.length (split " " Listener.markdownResponse) /\
    Spec.cat frags = Listener.markdownResponse.
Proof.
  assert (H : answers parse network typeErrorText clock ViaListener
                (Listener.chatRoute parse typeErrorText clock first markdownAsk)
                Listener.markdownResponse true)
    by (apply answers_listener; reflexivity).
  split; [exact H|].
  exact (streaming_round_trip parse network typeErrorText clock _ _ _ H).
Defined.

(** C2 as it is worded fails: the listener path answers a request that is
    not streaming with one JSON object, which does not read as records. *)
Lemma listener_reply_not_framed :
  Listener.selected parse first hiAsk
    = Ok ("Hello! I'm a demo AI assistant. How can I help you today?", false) /\
  payload (Listener.chatRoute parse typeErrorText clock first hiAsk)
    = Text (JSON_stringify
        (JObj [("content",
                JStr "Hello! I'm a demo AI assistant. How can I help you today?");
               ("done", JBool true);
               ("timestamp", JStr clock)])) /\
  Spec.records_of
    (payload (Listener.chatRoute parse typeErrorText clock first hiAsk)) = None /\
  Spec.records_of
    (payload (Listener.chatRoute parse typeErrorText clock first hiAsk))
  <> Some [Spec.Content "Hello! I'm a demo AI assistant. How can I help you today?";
           Spec.Done].
Proof.
  split; [reflexivity|]. split; [reflexivity|].
  split; [vm_compute; reflexivity | vm_compute; discriminate].
Qed.

Lemma non_streaming_reply_witness :
  answers parse network typeErrorText clock ViaInterception
    (Interception.fetch parse network first chatUrl (Some (postJson emptyText)))
    "I'm a demo AI assistant! I can help you with various questions and tasks. What would you like to know?"
    false /\
  Spec.records_of
    (payload (Interception.fetch parse network first chatUrl
                (Some (postJson emptyText))))
  = Some [Spec.Content "I'm a demo AI assistant! I can help you with various questions and tasks. What would you like to know?";
          Spec.Done].
Proof.
  assert (H : answers parse network typeErrorText clock ViaInterception
    (Interception.fetch parse network first chatUrl (Some (postJson emptyText)))
    "I'm a demo AI assistant! I can help you with various questions and tasks. What would you like to know?"
    false)
    by (apply answers_interception; reflexivity).
  split; [exact H|].
  exact (proj2 (proj2 (proj2
    (non_streaming_reply parse network typeErrorText clock _ _ _ H)))).
Defined.

(** C3 as it is worded fails: the interception path puts the space before
    each later fragment, not after each fragment but the last. *)
Lemma interception_space_leads :
  Interception.selected parse first (Some (Interception.BodyString hiText))
    = Ok ("I'm a demo AI assistant! I can help you with various questions and tasks. What would you like to know?", true) /\
  firstn 3 (Spec.trailing (Spec.words
    "I'm a demo AI assistant! I can help you with various questions and tasks. What would you like to know?"))
    = ["I'm "; "a "; "demo "] /\
  exists recs,
    Spec.records_of
      (payload (Interception.fetch parse network first chatUrl
                  (Some (postJson hiText)))) = Some recs /\
    firstn 3 (Spec.texts recs) = ["I'm"; " a"; " demo"] /\
    Spec.texts recs <> Spec.trailing (Spec.words
      "I'm a demo AI assistant! I can help you with various questions and tasks. What would you like to know?").
Proof.
  split; [reflexivity|]. split; [reflexivity|].
  eexists. split; [vm_compute; reflexivity|].
  split; [reflexivity | vm_compute; discriminate].
Qed.

Lemma fragment_spacing_witness :
  answers parse network typeErrorText clock ViaInterception
    (Interception.fetch parse network first chatUrl (Some (postJson hiText)))
    "I'm a demo AI assistant! I can help you with various questions and tasks. What would you like to know?"
    true /\
  exists recs,
    Spec.records_of
      (payload (Interception.fetch parse network first chatUrl
                  (Some (postJson hiText)))) = Some recs /\
    List.last recs Spec.Done = Spec.Done /\
    Spec.texts recs = leading (split " "
      "I'm a demo AI assistant! I can help you with various questions and tasks. What would you like to know?").
Proof.
  assert (H : answers parse network typeErrorText clock ViaInterception
    (Interception.fetch parse network first chatUrl (Some (postJson hiText)))
    "I'm a demo AI assistant! I can help you with various questions and tasks. What would you like to know?"
    true)
    by (apply answers_interception; reflexivity).
  split; [exact H|].
  exact (fragment_spacing parse network typeErrorText clock _ _ _ H).
Defined.

(** C4 fails on the interception path: the text [false] in the field
    [stream] is truthy, so the reply is streamed, where the listener path
    does not stream. *)
Lemma interception_streams_on_text_false :
  parse falseText = Ok (hiValue (JStr "false")) /\
  Interception.selected parse first (Some (Interception.BodyString falseText))
    = Ok ("I'm a demo AI assistant! I can help you with various questions and tasks. What would you like to know?", true) /\
  (exists chunks,
     payload (Interception.fetch parse network first chatUrl
                (Some (postJson falseText))) = Stream chunks /\
     List.length chunks = 21) /\
  Listener.isStreaming [("stream", JStr "false")] = false.
Proof.
  split; [reflexivity|]. split; [reflexivity|]. split; [|reflexivity].
  eexists. split; vm_compute; reflexivity.
Qed.

Lemma file_branch_first_witness :
  (Listener.selected parse first fileAsk
     = Ok (Listener.fileAcknowledgment [report], false) /\
   includes (Listener.fileAcknowledgment [report]) "report.pdf" = true) /\
  (Interception.fetch parse network first chatUrl (Some (post (Interception.FormData upload)))
     = Interception.formResponse
         (Interception.fileAcknowledgment [Some "report.pdf"; Some "notes.txt"]) /\
   includes (Interception.fileAcknowledgment [Some "report.pdf"; Some "notes.txt"])
            "notes.txt" = true).
Proof.
  destruct (file_branch_first parse network) as [Hl Hi].
  split.
  - destruct (Hl first fileAsk
                [JObj [("role", JStr "user");
                       ("content", JStr "Here is the FILE with my code")]]
                [("role", JStr "user");
                 ("content", JStr "Here is the FILE with my code")]
                "Here is the FILE with my code"
                eq_refl eq_refl eq_refl eq_refl eq_refl)
      as (Hsel & _ & Hnames); [discriminate|].
    split; [exact Hsel|].
    apply (Hnames report). now left.
  - destruct (Hi first chatUrl (post (Interception.FormData upload)) upload
                eq_refl eq_refl)
      as (Hresp & _ & Hnames); [discriminate|].
    split; [exact Hresp|].
    apply (Hnames "notes.txt"). right. now left.
Defined.

Lemma listener_fails_on_unparseable_messages_witness :
  parse "{" = Throw (SyntaxError "Unexpected token") /\
  Listener.chatRoute parse typeErrorText clock first brokenAsk
  = Listener.json 500
      (JObj [("error", JStr "Internal server error");
             ("message", JStr "Unexpected token")]).
Proof.
  split; [reflexivity|].
  apply (listener_fails_on_unparseable_messages parse typeErrorText clock
           first brokenAsk "{" (SyntaxError "Unexpected token"));
    [reflexivity | discriminate | reflexivity].
Defined.

Lemma unsupported_type_is_server_error_witness :
  (List.length [report] < Listener.filesLimit /\
   Forall accepted [report] /\
   existsb (String.eqb (Listener.mimetype archive)) Listener.allowedTypes = false) /\
  Listener.post parse typeErrorText clock first (Listener.body hiAsk)
    [report; archive]
  = Listener.json 500
      (JObj [("error", JStr "Server error");
             ("message", JStr "File type application/zip not allowed")]).
Proof.
  assert (Hlen : List.length [report] < Listener.filesLimit)
    by (unfold Listener.filesLimit; simpl; lia).
  assert (Hpre : Forall accepted [report])
    by (repeat constructor; discriminate).
  split; [repeat split; assumption|].
  apply (unsupported_type_is_server_error parse typeErrorText clock first
           (Listener.body hiAsk) [report] archive [] Hlen Hpre).
  reflexivity.
Defined.

(** C8 as it is worded fails on the listener path: with no message the
    text is empty, not [Hello]. *)
Lemma listener_empty_message_text :
  Listener.messagesOf parse (Listener.body emptyAsk) = Ok (JArr []) /\
  Listener.userMessageOf (JArr []) = Ok (Some (JStr "")) /\
  Listener.userMessageOf (JArr []) <> Ok (Some (JStr "Hello")).
Proof. repeat split; [discriminate]. Qed.

Lemma empty_history_default_witness :
  Interception.selected parse first (Some (Interception.BodyString emptyText))
    = Ok ("I'm a demo AI assistant! I can help you with various questions and tasks. What would you like to know?", false) /\
  Listener.selected parse first emptyAsk
    = Ok ("Hello! I'm a demo AI assistant. How can I help you today?", false) /\
  (Random.floor_times (grid 5404319552844595) 5 = 3 <->
   (5404319552844595 <= 5404319552844595 < 7205759403792794)%N).
Proof.
  destruct (empty_history_default parse) as (Hi & Hl & [H5 _] & _).
  split; [|split].
  - apply (Hi first emptyText [("messages", JArr [])] eq_refl eq_refl).
  - apply (Hl first emptyAsk eq_refl).
  - apply (H5 5404319552844595%N 3). reflexivity.
Defined.

Lemma form_data_reply_witness :
  Interception.isApiCall chatUrl = true /\
  Interception.body (post (Interception.FormData upload))
    = Some (Interception.FormData upload) /\
  Spec.records_of
    (payload (Interception.fetch parse network first chatUrl
                (Some (post (Interception.FormData upload))))) = None.
Proof.
  split; [reflexivity|]. split; [reflexivity|].
  exact (proj1 (proj2
    (form_data_reply parse network first chatUrl
       (post (Interception.FormData upload)) upload eq_refl eq_refl))).
Defined.

(** * Further properties of the two files *)

(** ** Which calls are intercepted *)

Section Matching.

Lemma prefix_split (t s : string) :
  String.prefix t s = true -> exists b, s = t ++ b.
Proof.
  revert s; induction t as [|c t IH]; intros s H.
  - now exists s.
  - destruct s as [|d s]; simpl in H; [discriminate|].
    destruct (ascii_dec c d) as [->|]; [|discriminate].
    destruct (IH s H) as [b ->]. now exists b.
Qed.

Lemma prefix_append (t b : string) : String.prefix t (t ++ b) = true.
Proof. apply prefix_app, prefix_refl. Qed.

(** [s.includes(t)] holds exactly when [t] occurs in [s]. *)
Lemma includes_iff (s t : string) :
  includes s t = true <-> exists a b, s = a ++ t ++ b.
Proof.
  split.
  - induction s as [|c s IH]; cbn [includes]; intro H.
    + rewrite orb_false_r in H. destruct (prefix_split _ _ H) as [b Hb].
      now exists "", b.
    + apply orb_true_iff in H. destruct H as [H|H].
      * destruct (prefix_split _ _ H) as [b Hb]. now exists "", b.
      * destruct (IH H) as (a & b & ->). now exists (String c a), b.
  - intros (a & b & ->). apply includes_app_l, includes_app_r, includes_refl.
Qed.

Lemma endsWith_includes (s t : string) :
  endsWith s t = true -> includes s t = true.
Proof.
  induction s as [|c s IH]; cbn [endsWith]; intro H.
  - rewrite orb_false_r in H. apply String.eqb_eq in H. subst. reflexivity.
  - apply orb_true_iff in H. destruct H as [H|H].
    + apply String.eqb_eq in H. subst. apply includes_refl.
    + apply includes_cons. now apply IH.
Qed.

(** A string address is intercepted exactly when [/api/chat] occurs in it,
    anywhere (the test [endsWith] adds nothing); a [URL] object exactly when
    it occurs in its path; nothing else is. *)
Theorem intercepted_addresses (url : Interception.resource) :
  Interception.isApiCall url = true <->
  match url with
  | Interception.UrlString s => exists a b, s = a ++ "/api/chat" ++ b
  | Interception.UrlObject _ pathname => exists a b, pathname = a ++ "/api/chat" ++ b
  | Interception.OtherResource _ => False
  end.
Proof.
  destruct url as [s|href pathname|d]; cbn [Interception.isApiCall].
  - rewrite orb_false_r, <- includes_iff. split.
    + intro H. apply orb_true_iff in H. destruct H as [H|H]; [exact H|].
      now apply endsWith_includes.
    + intro H. now rewrite H.
  - rewrite orb_false_r, orb_false_l. apply includes_iff.
  - split; [discriminate | contradiction].
Qed.

End Matching.

(** ** Calls that are passed through *)

Section PassThrough.

Variable JSON_parse : string -> result value.
Variable originalFetch : Interception.resource -> Interception.options -> response.

(** C9, as the code has it: a call whose address does not contain
    [/api/chat] (a string anywhere in it, a [URL] object in its path), and
    a call whose first argument is neither, is the call of the original
    [fetch] with the same address and the same options ([{}] when they are
    omitted). *)
Theorem pass_through_unless_mentioned (u : Random.draw)
  (url : Interception.resource) (opts : option Interception.options) :
  match url with
  | Interception.UrlString s => forall a b, s <> a ++ "/api/chat" ++ b
  | Interception.UrlObject _ pathname =>
      forall a b, pathname <> a ++ "/api/chat" ++ b
  | Interception.OtherResource _ => True
  end ->
  Interception.fetch JSON_parse originalFetch u url opts
  = originalFetch url (match opts with
                       | Some o => o
                       | None => Interception.no_options
                       end).
Proof.
  intro Hnot. apply pass_through.
  destruct url as [s|href pathname|d]; cbn [Interception.isApiCall].
  - rewrite orb_false_r.
    destruct (includes s "/api/chat") eqn:Hi.
    + apply includes_iff in Hi. destruct Hi as (a & b & E). now destruct (Hnot a b).
    + destruct (endsWith s "/api/chat") eqn:He; [|reflexivity].
      apply endsWith_includes in He. congruence.
  - rewrite orb_false_r, orb_false_l.
    destruct (includes pathname "/api/chat") eqn:Hi; [|reflexivity].
    apply includes_iff in Hi. destruct Hi as (a & b & E). now destruct (Hnot a b).
  - reflexivity.
Qed.

End PassThrough.

(** ** The selectors *)

Section Selectors.

(** The code examples come first on the interception path: a message that
    contains [code], [javascript] or [python], in any case of the letters,
    is answered by one of the code examples, whatever other keywords it
    contains. *)
Theorem code_keywords_first (u : Random.draw) (m k : string) :
  In (toLowerCase k) ["code"; "javascript"; "python"] ->
  includes m k = true ->
  exists r,
    Interception.generateResponse u (Some (JStr m)) = Ok r /\
    In r Interception.codeExamples.
Proof.
  intros Hk Hm. apply includes_lower in Hm.
  eexists. split; [reflexivity|].
  unfold Interception.respondTo.
  assert (Hcode : includes (toLowerCase m) "code"
                  || includes (toLowerCase m) "javascript"
                  || includes (toLowerCase m) "python" = true).
  { destruct Hk as [E|[E|[E|[]]]]; rewrite <- E in Hm; rewrite Hm;
      rewrite ?orb_true_r; reflexivity. }
  rewrite Hcode. apply pick_In. discriminate.
Qed.

(** The technical responses come second: without a code keyword, a message
    that contains [technical], [performance] or [optimize] is answered by
    one of them, also when it asks how something works. *)
Theorem technical_keywords_second (u : Random.draw) (m k : string) :
  includes (toLowerCase m) "code" = false ->
  includes (toLowerCase m) "javascript" = false ->
  includes (toLowerCase m) "python" = false ->
  In (toLowerCase k) ["technical"; "performance"; "optimize"] ->
  includes m k = true ->
  exists r,
    Interception.generateResponse u (Some (JStr m)) = Ok r /\
    In r Interception.technicalResponses.
Proof.
  intros H1 H2 H3 Hk Hm. apply includes_lower in Hm.
  eexists. split; [reflexivity|].
  unfold Interception.respondTo. rewrite H1, H2, H3. cbn [orb].
  assert (Htech : includes (toLowerCase m) "technical"
                  || includes (toLowerCase m) "performance"
                  || includes (toLowerCase m) "optimize" = true).
  { destruct Hk as [E|[E|[E|[]]]]; rewrite <- E in Hm; rewrite Hm;
      rewrite ?orb_true_r; reflexivity. }
  rewrite Htech. apply pick_In. discriminate.
Qed.

(** Whatever the message, the interception selector returns a text of its
    corpus, and never the empty text. *)
Theorem interception_reply_in_corpus (u : Random.draw) (m : string) :
  exists r,
    Interception.generateResponse u (Some (JStr m)) = Ok r /\
    In r (Interception.codeExamples ++ Interception.technicalResponses
          ++ [Interception.integrationText] ++ Interception.mockResponses)%list /\
    r <> "".
Proof.
  eexists. split; [reflexivity|].
  assert (Hin : In (Interception.respondTo u (toLowerCase m))
    (Interception.codeExamples ++ Interception.technicalResponses
     ++ [Interception.integrationText] ++ Interception.mockResponses)%list).
  { unfold Interception.respondTo.
    destruct (includes (toLowerCase m) "code" || includes (toLowerCase m) "javascript"
              || includes (toLowerCase m) "python").
    - apply in_or_app. left. apply pick_In. discriminate.
    - destruct (includes (toLowerCase m) "technical"
                || includes (toLowerCase m) "performance"
                || includes (toLowerCase m) "optimize").
      + apply in_or_app. right. apply in_or_app. left. apply pick_In. discriminate.
      + destruct (includes (toLowerCase m) "how"
                  && (includes (toLowerCase m) "work"
                      || includes (toLowerCase m) "integrate")).
        * apply in_or_app. right. apply in_or_app. right. now left.
        * apply in_or_app. right. apply in_or_app. right. right.
          apply pick_In. discriminate. }
  split; [exact Hin|].
  intro E. rewrite E in Hin. clear E.
  cbv in Hin. repeat (destruct Hin as [Hin|Hin]; [discriminate Hin|]).
  exact Hin.
Qed.

(** On the listener path the file acknowledgment is the reply exactly when
    the message contains [file] and the request carries files; otherwise
    the reply is the code example, the markdown example or a general
    response. *)
Theorem listener_reply_classes (u : Random.draw) (m : string)
  (files : list Listener.file) :
  exists r,
    Listener.respond u (Some (JStr m)) files = Ok r /\
    (r = Listener.fileAcknowledgment files <->
     includes (toLowerCase m) "file" = true /\ files <> []) /\
    (r = Listener.fileAcknowledgment files \/ r = Listener.codeResponse \/
     r = Listener.markdownResponse \/ In r Listener.mockResponses).
Proof.
  assert (Hother : forall r,
    r = Listener.codeResponse \/ r = Listener.markdownResponse \/
    In r Listener.mockResponses -> r <> Listener.fileAcknowledgment files).
  { intros r Hr E. subst r. unfold Listener.fileAcknowledgment in Hr.
    cbn [append] in Hr.
    destruct Hr as [Hr|[Hr|Hr]]; [discriminate Hr | discriminate Hr |].
    cbn [Listener.mockResponses In] in Hr.
    repeat (destruct Hr as [Hr|Hr]; [discriminate Hr|]). exact Hr. }
  unfold Listener.respond. cbn [Listener.lowerOf bind].
  destruct (includes (toLowerCase m) "file") eqn:Hf;
    [destruct files as [|f files]|]; cbn [List.length Nat.ltb Nat.leb andb].
  1, 3:
    destruct (includes (toLowerCase m) "code");
      [|destruct (includes (toLowerCase m) "markdown")];
      (eexists; split; [reflexivity|]; split;
       [split;
        [intro E; exfalso; revert E; apply Hother;
         first [now left | now (right; left)
               | right; right; apply pick_In; discriminate]
        | intros [H1 H2]; congruence]
       | first [now (right; left) | now (right; right; left)
               | right; right; right; apply pick_In; discriminate]]).
  eexists. split; [reflexivity|]. split; [|now left].
  split; [intros _; split; [reflexivity | discriminate] | reflexivity].
Qed.

End Selectors.

(** ** Intercepted calls *)

Section Intercepted.

Variable JSON_parse : string -> result value.
Variable originalFetch : Interception.resource -> Interception.options -> response.

(** An intercepted call never reaches the network, and its response is
    either the simulation error or has the status 200 and the headers of a
    JSON text or of an event stream. *)
Theorem intercepted_responses (u : Random.draw) (url : Interception.resource)
  (opts : option Interception.options) :
  Interception.isApiCall url = true ->
  let resp := Interception.fetch JSON_parse originalFetch u url opts in
  (forall network', Interception.fetch JSON_parse network' u url opts = resp) /\
  (resp = Interception.simulationError \/
   status resp = 200 /\
   (headers resp = Interception.jsonHeaders \/
    headers resp = Interception.eventStreamHeaders)).
Proof.
  intros Hurl resp. subst resp. unfold Interception.fetch. rewrite Hurl.
  split; [reflexivity|].
  unfold Interception.serve.
  destruct (Interception.body
              match opts with Some o => o | None => Interception.no_options end)
    as [[entries|text|d]|].
  - destruct (0 <? List.length (Interception.form_files entries))%nat;
      cbn; right; split; [reflexivity | now left | reflexivity | now left].
  - destruct (Interception.selected JSON_parse u
                (Some (Interception.BodyString text))) as [[r s]|e];
      cbn [bind fst snd]; [|now left].
    right. destruct s; cbn; split; [reflexivity | now right | reflexivity | now right].
  - destruct (Interception.selected JSON_parse u
                (Some (Interception.OtherBody d))) as [[r s]|e];
      cbn [bind fst snd]; [|now left].
    right. destruct s; cbn; split; [reflexivity | now right | reflexivity | now right].
  - destruct (Interception.selected JSON_parse u None) as [[r s]|e];
      cbn [bind fst snd]; [|now left].
    right. destruct s; cbn; split; [reflexivity | now right | reflexivity | now right].
Qed.

(** Running the script twice changes nothing: a chat call is answered by
    the outer wrapper alone, and any other call goes through both wrappers
    to the original [fetch]. *)
Theorem installed_twice (inner u : Random.draw) (url : Interception.resource)
  (opts : option Interception.options) :
  Demo.installedTwice JSON_parse originalFetch inner u url opts
  = Interception.fetch JSON_parse originalFetch u url opts.
Proof.
  unfold Demo.installedTwice, Interception.fetch.
  destruct (Interception.isApiCall url); reflexivity.
Qed.

(** A body that parses to [null] ends in the simulation error: the guarded
    read of [data.messages] fails quietly, the later read of [data.stream]
    does not. *)
Theorem null_body_is_an_error (u : Random.draw) (url : Interception.resource)
  (o : Interception.options) (text : string) :
  Interception.isApiCall url = true ->
  Interception.body o = Some (Interception.BodyString text) ->
  JSON_parse text = Ok JNull ->
  Interception.fetch JSON_parse originalFetch u url (Some o)
  = Interception.simulationError.
Proof.
  intros Hurl Hbody Hparse.
  unfold Interception.fetch, Interception.serve, Interception.selected,
    Interception.parseBody.
  rewrite Hurl, Hbody, Hparse. reflexivity.
Qed.

(** A body that is absent or is no text, and a text that parses to a
    boolean, a number, a string or an array, are taken for an empty
    request: a general response, not streamed. *)
Theorem bodies_without_fields (u : Random.draw) (url : Interception.resource)
  (o : Interception.options) :
  Interception.isApiCall url = true ->
  match Interception.body o with
  | Some (Interception.FormData _) => False
  | Some (Interception.BodyString text) =>
      match JSON_parse text with
      | Ok JNull | Ok (JObj _) | Throw _ => False
      | Ok _ => True
      end
  | _ => True
  end ->
  Interception.fetch JSON_parse originalFetch u url (Some o)
  = Interception.deliver (Random.pick u Interception.mockResponses) false.
Proof.
  intros Hurl Hbody.
  unfold Interception.fetch, Interception.serve, Interception.selected,
    Interception.parseBody.
  rewrite Hurl.
  destruct (Interception.body o) as [[entries|text|d]|];
    [contradiction | | reflexivity | reflexivity].
  destruct (JSON_parse text) as [[|b|n|s|l|props]|e];
    try contradiction; reflexivity.
Qed.

(** A last message without a text in [content] ends the intercepted call
    in the simulation error. *)
Theorem interception_needs_content (u : Random.draw)
  (url : Interception.resource) (o : Interception.options) (text : string)
  (data : list (string * value)) (msgs : list value)
  (props : list (string * value)) :
  Interception.isApiCall url = true ->
  Interception.body o = Some (Interception.BodyString text) ->
  JSON_parse text = Ok (JObj data) ->
  assoc "messages" data = Some (JArr msgs) ->
  List.last (map Some msgs) None = Some (JObj props) ->
  (forall s, assoc "content" props <> Some (JStr s)) ->
  Interception.fetch JSON_parse originalFetch u url (Some o)
  = Interception.simulationError.
Proof.
  intros Hurl Hbody Hparse Hm Hlast Hc.
  unfold Interception.fetch, Interception.serve, Interception.selected,
    Interception.parseBody.
  rewrite Hurl, Hbody, Hparse. cbn [get_prop]. rewrite Hm. cbn [truthy].
  unfold Interception.userMessageOf. cbn [js_last]. rewrite Hlast.
  cbn [truthy get_prop bind].
  destruct (assoc "content" props) as [[|b|n|s|l|p]|]; try reflexivity.
  now destruct (Hc s).
Qed.

(** The self-test gets a streamed general response whenever the parser
    reads back what [JSON.stringify] wrote. *)
Theorem self_test_streams (u : Random.draw) :
  let request :=
    JObj [("messages", JArr [JObj [("role", JStr "user"); ("content", JStr "test")]]);
          ("stream", JBool true)] in
  JSON_parse (JSON_stringify request) = Ok request ->
  exists reply,
    In reply Interception.mockResponses /\
    Demo.testMockAPI JSON_parse originalFetch u
    = Some (Interception.deliver reply true) /\
    exists frags,
      Spec.records_of (payload (Interception.deliver reply true))
      = Some (map Spec.Content frags ++ [Spec.Done])%list /\
      Spec.cat frags = reply.
Proof.
  intros request Hparse.
  exists (Random.pick u Interception.mockResponses).
  split; [apply pick_In; discriminate|]. split.
  - unfold Demo.testMockAPI, Interception.fetch, Interception.serve,
      Interception.selected, Interception.parseBody.
    cbn [Interception.isApiCall Interception.body].
    fold request. rewrite Hparse. reflexivity.
  - exists (leading (split " " (Random.pick u Interception.mockResponses))).
    split.
    + cbn [Interception.deliver payload]. rewrite interception_stream.
      apply records_of_stream, spells_contents. apply spells_done_literal.
    + rewrite cat_leading. apply (join_split " ").
Qed.

End Intercepted.

(** ** A stream while it is being sent *)

Section Progress.

Lemma cat_app (a b : list string) :
  Spec.cat (a ++ b)%list = Spec.cat a ++ Spec.cat b.
Proof.
  induction a as [|x a IH]; [reflexivity|].
  cbn [app Spec.cat]. now rewrite IH, append_assoc.
Qed.

(** The texts received so far are the beginning of the whole text. *)
Lemma cat_firstn_prefix (j : nat) (frags : list string) :
  String.prefix (Spec.cat (firstn j frags)) (Spec.cat frags) = true.
Proof.
  rewrite <- (firstn_skipn j frags) at 2. rewrite cat_app.
  apply prefix_append.
Qed.

Lemma firstn_seq_le (j a n : nat) :
  j <= n -> firstn j (seq a n) = seq a j.
Proof.
  revert a n; induction j as [|j IH]; intros a n Hle; [reflexivity|].
  destruct n as [|n]; [lia|].
  cbn [seq firstn]. now rewrite IH by lia.
Qed.

Lemma spells_only_contents (frags : list string) :
  Forall2 spells (map contentFrame frags) (map Spec.Content frags).
Proof.
  induction frags as [|t frags IH]; simpl; constructor; [constructor | exact IH].
Qed.

Lemma run_open (chunks : list string) (fuel i : nat) (out : list string) :
  i + fuel <= List.length chunks ->
  Interception.run chunks fuel (Interception.mkStream i out false)
  = Interception.mkStream (i + fuel)
      (out ++ map (fun j => contentFrame (Interception.chunkContent chunks j))
                  (seq i fuel))
      false.
Proof.
  revert i out; induction fuel as [|fuel IH]; intros i out Hle.
  - cbn [Interception.run Interception.closed seq map].
    now rewrite Nat.add_0_r, app_nil_r.
  - rewrite run_step. cbn [Interception.closed].
    rewrite tick_emits, IH by lia.
    cbn [seq map]. rewrite <- app_assoc. cbn [app]. f_equal. lia.
Qed.

(** After [j] firings of the timer, [j] no more than the number of pieces,
    the interception stream is open and holds the first [j] content records
    and no completion record; their texts are the beginning of the reply. *)
Theorem interception_stream_progress (reply : string) (j : nat) :
  j <= List.length (split " " reply) ->
  let st := Interception.run (split " " reply) j Interception.start in
  let sent := firstn j (leading (split " " reply)) in
  Interception.closed st = false /\
  Interception.enqueued st = map contentFrame sent /\
  Spec.records_of (Stream (Interception.enqueued st)) = Some (map Spec.Content sent) /\
  String.prefix (Spec.cat sent) reply = true.
Proof.
  intros Hj st sent. subst st. unfold Interception.start.
  rewrite run_open by lia.
  cbn [Interception.closed Interception.enqueued app Nat.add].
  assert (Hsent : map (fun i => contentFrame (Interception.chunkContent (split " " reply) i))
                      (seq 0 j) = map contentFrame sent).
  { subst sent. rewrite <- chunkContents_leading, firstn_map, map_map.
    now rewrite firstn_seq_le by lia. }
  rewrite Hsent. split; [reflexivity|]. split; [reflexivity|]. split.
  - apply records_of_stream, spells_only_contents.
  - subst sent. rewrite <- (join_split " " reply) at 2. rewrite <- cat_leading.
    apply cat_firstn_prefix.
Qed.

Lemma writeWords_open (words : list string) (fuel i : nat) (written : list string) :
  i + fuel <= List.length words ->
  Listener.writeWords words fuel i written
  = (written ++ map (fun j => contentFrame (Listener.wordChunk words j))
                    (seq i fuel))%list.
Proof.
  revert i written; induction fuel as [|fuel IH]; intros i written Hle.
  - cbn [Listener.writeWords seq map]. now rewrite app_nil_r.
  - cbn [Listener.writeWords].
    replace (i <? List.length words)%nat with true
      by (symmetry; apply Nat.ltb_lt; lia).
    fold (contentFrame (Listener.wordChunk words i)).
    rewrite IH by lia. cbn [seq map]. rewrite <- app_assoc. reflexivity.
Qed.

(** After [j] turns of the listener's loop the response holds the first
    [j] content records and no completion record; their texts are the
    beginning of the reply. *)
Theorem listener_stream_progress (reply : string) (j : nat) :
  j <= List.length (split " " reply) ->
  let written := Listener.writeWords (split " " reply) j 0 [] in
  let sent := firstn j (Spec.trailing (split " " reply)) in
  written = map contentFrame sent /\
  Spec.records_of (Stream written) = Some (map Spec.Content sent) /\
  String.prefix (Spec.cat sent) reply = true.
Proof.
  intros Hj written sent. subst written.
  rewrite writeWords_open by lia. cbn [app].
  assert (Hsent : map (fun i => contentFrame (Listener.wordChunk (split " " reply) i))
                      (seq 0 j) = map contentFrame sent).
  { subst sent. rewrite <- (wordChunks_trailing (split " " reply) []).
    cbn [app List.length]. rewrite firstn_map, map_map.
    now rewrite firstn_seq_le by lia. }
  rewrite Hsent. split; [reflexivity|]. split.
  - apply records_of_stream, spells_only_contents.
  - subst sent. rewrite <- (join_split " " reply) at 2. rewrite <- cat_trailing.
    apply cat_firstn_prefix.
Qed.

End Progress.

(** ** One record, one line *)

Section Lines.

Lemma prefix_empty (s : string) : String.prefix "" s = true.
Proof. now destruct s. Qed.

(** A character occurs in a text made of two when it occurs in one. *)
Lemma includes_char_app (a b : string) (c : ascii) :
  includes (a ++ b) (String c "")
  = includes a (String c "") || includes b (String c "").
Proof.
  induction a as [|x a IH].
  - cbn [append includes]. unfold startsWith.
    now replace (String.prefix (String c "") "") with false by reflexivity.
  - change (String x a ++ b) with (String x (a ++ b)).
    cbn [includes]. rewrite IH. unfold startsWith. cbn [String.prefix].
    destruct (ascii_dec c x); [|reflexivity].
    now rewrite !prefix_empty.
Qed.

Lemma printable_app (a b : string) :
  printable (a ++ b) = printable a && printable b.
Proof.
  induction a as [|x a IH]; [reflexivity|].
  cbn [append printable]. now rewrite IH, andb_assoc.
Qed.

Lemma escape_char_printable (c : ascii) : printable (escape_char c) = true.
Proof. destruct c as [[] [] [] [] [] [] [] []]; reflexivity. Qed.

Lemma escape_printable (s : string) : printable (escape s) = true.
Proof.
  induction s as [|c s IH]; [reflexivity|].
  cbn [escape]. now rewrite printable_app, escape_char_printable, IH.
Qed.

Lemma printable_excludes (s : string) (c : ascii) :
  printable s = true -> (nat_of_ascii c < 32)%nat ->
  includes s (String c "") = false.
Proof.
  intros Hs Hc. induction s as [|x s IH]; [reflexivity|].
  cbn [printable] in Hs. apply andb_true_iff in Hs. destruct Hs as [Hx Hs].
  cbn [includes]. rewrite (IH Hs), orb_false_r.
  unfold startsWith. cbn [String.prefix].
  destruct (ascii_dec c x) as [->|]; [|reflexivity].
  apply Nat.leb_le in Hx. lia.
Qed.

(** The JSON text of a content record holds no control character,
    whatever the fragment holds: no line feed and no carriage return, so
    the line ends only where the record does. *)
Theorem content_record_is_one_line (text : string) (c : ascii) :
  (nat_of_ascii c < 32)%nat ->
  includes (JSON_stringify (JObj [("content", JStr text)])) (String c "") = false.
Proof.
  intro Hc. apply printable_excludes; [|exact Hc].
  change (JSON_stringify (JObj [("content", JStr text)]))
    with ("{" ++ (quote "content" ++ ":" ++ dq ++ escape text ++ dq) ++ "}").
  rewrite !printable_app, escape_printable. reflexivity.
Qed.

End Lines.

(** ** Uploads and errors on the listener path *)

Section Uploads.

Variable JSON_parse : string -> result value.
Variable typeErrorMessage : fault -> string.
Variable timestamp : string.

(** One character of a code: each bit in turn, as far as it is the bit of
    the codes that the middleware knows. *)
Ltac next_char code :=
  destruct code as [|[b0 b1 b2 b3 b4 b5 b6 b7] code]; [reflexivity|];
  destruct b0; try reflexivity; destruct b1; try reflexivity;
  destruct b2; try reflexivity; destruct b3; try reflexivity;
  destruct b4; try reflexivity; destruct b5; try reflexivity;
  destruct b6; try reflexivity; destruct b7; try reflexivity.

Lemma errorMiddleware_multer (code message : string) :
  Listener.errorMiddleware typeErrorMessage (MulterError code message)
  = if String.eqb code "LIMIT_FILE_SIZE" then
      Listener.json 400 (JObj [("error", JStr "File too large");
                               ("message", JStr "Maximum file size is 10MB")])
    else if String.eqb code "LIMIT_FILE_COUNT" then
      Listener.json 400 (JObj [("error", JStr "Too many files");
                               ("message", JStr "Maximum 5 files allowed")])
    else
      Listener.json 500 (JObj [("error", JStr "Server error");
                               ("message", JStr message)]).
Proof. repeat next_char code. Qed.

(** The status 400 is given to the two upload limits and to nothing else;
    every other error gets the status 500 and its own message. *)
Theorem error_statuses (error : js_error) :
  let resp := Listener.errorMiddleware typeErrorMessage error in
  (status resp = 400 <->
   exists message, error = MulterError "LIMIT_FILE_SIZE" message \/
                   error = MulterError "LIMIT_FILE_COUNT" message) /\
  (status resp <> 400 ->
   resp = Listener.json 500
            (JObj [("error", JStr "Server error");
                   ("message", JStr (Listener.messageOf typeErrorMessage error))])).
Proof.
  destruct error as [m|f|m|code m]; cbn zeta;
    try (split; [split; [discriminate | intros [x [H|H]]; discriminate H]
                | reflexivity]).
  rewrite errorMiddleware_multer.
  destruct (String.eqb_spec code "LIMIT_FILE_SIZE") as [->|Hsize].
  - split; [|intro H; now destruct H].
    split; [intros _; exists m; now left | reflexivity].
  - destruct (String.eqb_spec code "LIMIT_FILE_COUNT") as [->|Hcount].
    + split; [|intro H; now destruct H].
      split; [intros _; exists m; now right | reflexivity].
    + split; [|reflexivity].
      split; [discriminate|].
      intros [x [H|H]]; inversion H; congruence.
Qed.

(** A last message without a text in [content] ends the route with the
    status 500 and the text of the engine's error. *)
Theorem listener_needs_content (u : Random.draw) (req : Listener.request)
  (msgs : list value) (props : list (string * value)) :
  Listener.messagesOf JSON_parse (Listener.body req) = Ok (JArr msgs) ->
  List.last (map Some msgs) None = Some (JObj props) ->
  (forall s, assoc "content" props <> Some (JStr s)) ->
  exists f,
    Listener.chatRoute JSON_parse typeErrorMessage timestamp u req
    = Listener.json 500 (JObj [("error", JStr "Internal server error");
                               ("message", JStr (typeErrorMessage f))]).
Proof.
  intros Hm Hlast Hc.
  unfold Listener.chatRoute, Listener.chat, Listener.selected.
  rewrite Hm. cbn [bind Listener.lengthOf].
  unfold Listener.userMessageOf. cbn [js_last]. rewrite Hlast.
  cbn [truthy get_prop bind]. unfold Listener.respond.
  destruct (assoc "content" props) as [[|b|n|s|l|p]|];
    try (eexists; reflexivity).
  now destruct (Hc s).
Qed.

(** The field [messages] sent as a JSON text and sent as the array it
    denotes select the same reply. *)
Theorem messages_text_or_array (u : Random.draw) (text : string)
  (msgs : list value) (more : list (string * value)) (files : list Listener.file) :
  text <> "" ->
  JSON_parse text = Ok (JArr msgs) ->
  Listener.chatRoute JSON_parse typeErrorMessage timestamp u
    {| Listener.body := ("messages", JStr text) :: more; Listener.files := files |}
  = Listener.chatRoute JSON_parse typeErrorMessage timestamp u
      {| Listener.body := ("messages", JArr msgs) :: more; Listener.files := files |}.
Proof.
  intros Hne Hparse.
  unfold Listener.chatRoute, Listener.chat, Listener.selected, Listener.messagesOf,
    Listener.isStreaming.
  cbn [Listener.body Listener.files assoc String.eqb Ascii.eqb Bool.eqb truthy].
  apply String.eqb_neq in Hne. rewrite Hne. cbn [negb]. rewrite Hparse.
  reflexivity.
Qed.

End Uploads.

(** ** The badge of the demonstration *)

Section Badge.

(** The badge is added once: a document that has an element of that
    [id] is left as it is, any other gets the badge as its last element;
    so a second call changes nothing, the elements of the page are kept in
    their order, and the number of elements of that [id] does not grow
    beyond the first. *)
Theorem indicator_is_added_once (doc : Demo.document) :
  let doc' := Demo.addDemoIndicator doc in
  Demo.addDemoIndicator doc' = doc' /\
  Demo.getElementById "demo-indicator" doc' <> None /\
  (exists added, doc' = (doc ++ added)%list) /\
  List.length (filter isIndicator doc')
  = Nat.max 1 (List.length (filter isIndicator doc)).
Proof.
  intro doc'. subst doc'. unfold Demo.addDemoIndicator, Demo.getElementById.
  fold isIndicator.
  destruct (find isIndicator doc) as [e|] eqn:Hfind.
  - rewrite Hfind. split; [reflexivity|]. split; [discriminate|].
    split; [exists []; now rewrite app_nil_r|].
    apply find_some in Hfind. destruct Hfind as [Hin He].
    assert (Hin' : In e (filter isIndicator doc)) by (apply filter_In; now split).
    destruct (filter isIndicator doc); [destruct Hin' | simpl; lia].
  - assert (Hnew : find isIndicator (doc ++ [Demo.indicator])%list
                   = Some Demo.indicator).
    { clear -Hfind. induction doc as [|x doc IH]; [reflexivity|].
      cbn [find app] in *. destruct (isIndicator x); [discriminate|].
      now apply IH. }
    rewrite Hnew. split; [reflexivity|]. split; [discriminate|].
    split; [now exists [Demo.indicator]|].
    rewrite filter_app, length_app.
    assert (Hnone : filter isIndicator doc = []).
    { clear -Hfind. induction doc as [|x doc IH]; [reflexivity|].
      cbn [find filter] in *. destruct (isIndicator x); [discriminate|].
      now apply IH. }
    rewrite Hnone. reflexivity.
Qed.

End Badge.

(** ** The field [messages] on the listener path *)

Section Messages.

Variable JSON_parse : string -> result value.
Variable typeErrorMessage : fault -> string.
Variable timestamp : string.

(** A field [messages] whose text parses to [null] ends the route with
    the status 500: the line that logs [messages.length] fails. *)
Theorem null_messages_fail (u : Random.draw) (req : Listener.request)
  (text : string) :
  assoc "messages" (Listener.body req) = Some (JStr text) ->
  text <> "" ->
  JSON_parse text = Ok JNull ->
  Listener.chatRoute JSON_parse typeErrorMessage timestamp u req
  = Listener.json 500
      (JObj [("error", JStr "Internal server error");
             ("message", JStr (typeErrorMessage (ReadOfNull "length")))]).
Proof.
  intros Hm Hne Hparse.
  unfold Listener.chatRoute, Listener.chat, Listener.selected, Listener.messagesOf.
  rewrite Hm. cbn [truthy].
  apply String.eqb_neq in Hne. rewrite Hne. cbn [negb].
  rewrite Hparse. reflexivity.
Qed.

(** Without a field [messages], or with one that is falsy (the empty
    text, [null], [false], [0]), the route parses nothing and answers with
    a general response, whatever files the request carries. *)
Theorem listener_without_messages (u : Random.draw) (req : Listener.request) :
  truthy (assoc "messages" (Listener.body req)) = false ->
  Listener.chatRoute JSON_parse typeErrorMessage timestamp u req
  = Listener.deliver timestamp (Listener.getRandomResponse u)
      (Listener.isStreaming (Listener.body req)).
Proof.
  intro Hm.
  unfold Listener.chatRoute, Listener.chat, Listener.selected, Listener.messagesOf.
  rewrite Hm. reflexivity.
Qed.

End Messages.

(** ** The further properties at sample requests *)

Lemma code_keywords_first_witness :
  (In (toLowerCase "Python") ["code"; "javascript"; "python"] /\
   includes "Sort a list in Python, with good performance" "Python" = true) /\
  exists r,
    Interception.generateResponse Example.first
      (Some (JStr "Sort a list in Python, with good performance")) = Ok r /\
    In r Interception.codeExamples.
Proof.
  assert (Hk : In (toLowerCase "Python") ["code"; "javascript"; "python"])
    by (right; right; left; reflexivity).
  assert (Hm : includes "Sort a list in Python, with good performance" "Python" = true)
    by reflexivity.
  split; [split; assumption|].
  exact (code_keywords_first Example.first _ _ Hk Hm).
Defined.

Lemma technical_keywords_second_witness :
  (includes (toLowerCase "How does the PERFORMANCE tuning work?") "code" = false /\
   includes (toLowerCase "How does the PERFORMANCE tuning work?") "javascript" = false /\
   includes (toLowerCase "How does the PERFORMANCE tuning work?") "python" = false /\
   In (toLowerCase "PERFORMANCE") ["technical"; "performance"; "optimize"] /\
   includes "How does the PERFORMANCE tuning work?" "PERFORMANCE" = true) /\
  exists r,
    Interception.generateResponse Example.first
      (Some (JStr "How does the PERFORMANCE tuning work?")) = Ok r /\
    In r Interception.technicalResponses.
Proof.
  assert (Hk : In (toLowerCase "PERFORMANCE") ["technical"; "performance"; "optimize"])
    by (right; left; reflexivity).
  split; [repeat split; (reflexivity || exact Hk)|].
  exact (technical_keywords_second Example.first
           "How does the PERFORMANCE tuning work?" "PERFORMANCE"
           eq_refl eq_refl eq_refl Hk eq_refl).
Defined.

Lemma intercepted_responses_witness :
  Interception.isApiCall Example.chatUrl = true /\
  (Interception.fetch Samples.parse Example.network Example.first Example.chatUrl
     (Some (Example.postJson "null")) = Interception.simulationError \/
   status (Interception.fetch Samples.parse Example.network Example.first
             Example.chatUrl (Some (Example.postJson "null"))) = 200 /\
   (headers (Interception.fetch Samples.parse Example.network Example.first
               Example.chatUrl (Some (Example.postJson "null")))
    = Interception.jsonHeaders \/
    headers (Interception.fetch Samples.parse Example.network Example.first
               Example.chatUrl (Some (Example.postJson "null")))
    = Interception.eventStreamHeaders)).
Proof.
  split; [reflexivity|].
  exact (proj2 (intercepted_responses Samples.parse Example.network Example.first
                  Example.chatUrl (Some (Example.postJson "null")) eq_refl)).
Defined.

Lemma null_body_is_an_error_witness :
  (Interception.isApiCall Example.chatUrl = true /\
   Samples.parse "null" = Ok JNull) /\
  Interception.fetch Samples.parse Example.network Example.first Example.chatUrl
    (Some (Example.postJson "null")) = Interception.simulationError.
Proof.
  split; [split; reflexivity|].
  exact (null_body_is_an_error Samples.parse Example.network Example.first
           Example.chatUrl (Example.postJson "null") "null"
           eq_refl eq_refl eq_refl).
Defined.

Lemma bodies_without_fields_witness :
  (Interception.isApiCall Example.chatUrl = true /\
   Samples.parse "42" = Ok (JNum 42)) /\
  Interception.fetch Samples.parse Example.network Example.first Example.chatUrl
    (Some (Example.postJson "42"))
  = Interception.deliver
      (Random.pick Example.first Interception.mockResponses) false.
Proof.
  split; [split; reflexivity|].
  exact (bodies_without_fields Samples.parse Example.network Example.first
           Example.chatUrl (Example.postJson "42") eq_refl I).
Defined.

Lemma interception_needs_content_witness :
  (Samples.parse Samples.noContentText
     = Ok (JObj [("messages", JArr Samples.noContentMessages)]) /\
   forall s, assoc "content" [("role", JStr "user")] <> Some (JStr s)) /\
  Interception.fetch Samples.parse Example.network Example.first Example.chatUrl
    (Some (Example.postJson Samples.noContentText))
  = Interception.simulationError.
Proof.
  assert (Hc : forall s, assoc "content" [("role", JStr "user")] <> Some (JStr s))
    by (intros s; discriminate).
  split; [split; [reflexivity | exact Hc]|].
  exact (interception_needs_content Samples.parse Example.network Example.first
           Example.chatUrl (Example.postJson Samples.noContentText)
           Samples.noContentText
           [("messages", JArr Samples.noContentMessages)]
           Samples.noContentMessages [("role", JStr "user")]
           eq_refl eq_refl eq_refl eq_refl eq_refl Hc).
Defined.

Lemma self_test_streams_witness :
  Samples.parse (JSON_stringify Samples.selfTestRequest) = Ok Samples.selfTestRequest /\
  exists reply,
    In reply Interception.mockResponses /\
    Demo.testMockAPI Samples.parse Example.network Example.first
    = Some (Interception.deliver reply true) /\
    exists frags,
      Spec.records_of (payload (Interception.deliver reply true))
      = Some (map Spec.Content frags ++ [Spec.Done])%list /\
      Spec.cat frags = reply.
Proof.
  split; [reflexivity|].
  exact (self_test_streams Samples.parse Example.network Example.first eq_refl).
Defined.

Lemma interception_stream_progress_witness :
  2 <= List.length (split " " "one two three") /\
  Interception.enqueued
    (Interception.run (split " " "one two three") 2 Interception.start)
  = map contentFrame ["one"; " two"].
Proof.
  assert (H : 2 <= List.length (split " " "one two three")) by (simpl; lia).
  split; [exact H|].
  exact (proj1 (proj2 (interception_stream_progress "one two three" 2 H))).
Defined.

Lemma listener_stream_progress_witness :
  2 <= List.length (split " " "one two three") /\
  Listener.writeWords (split " " "one two three") 2 0 []
  = map contentFrame ["one "; "two "].
Proof.
  assert (H : 2 <= List.length (split " " "one two three")) by (simpl; lia).
  split; [exact H|].
  exact (proj1 (listener_stream_progress "one two three" 2 H)).
Defined.

Lemma listener_needs_content_witness :
  (Listener.messagesOf Samples.parse (Listener.body Samples.noContentAsk)
     = Ok (JArr Samples.noContentMessages) /\
   forall s, assoc "content" [("role", JStr "user")] <> Some (JStr s)) /\
  exists f,
    Listener.chatRoute Samples.parse Example.typeErrorText Example.clock
      Example.first Samples.noContentAsk
    = Listener.json 500 (JObj [("error", JStr "Internal server error");
                               ("message", JStr (Example.typeErrorText f))]).
Proof.
  assert (Hc : forall s, assoc "content" [("role", JStr "user")] <> Some (JStr s))
    by (intros s; discriminate).
  split; [split; [reflexivity | exact Hc]|].
  exact (listener_needs_content Samples.parse Example.typeErrorText Example.clock
           Example.first Samples.noContentAsk Samples.noContentMessages
           [("role", JStr "user")] eq_refl eq_refl Hc).
Defined.

Lemma messages_text_or_array_witness :
  (Samples.hiArrayText <> "" /\
   Samples.parse Samples.hiArrayText = Ok (JArr Samples.hiMessages)) /\
  Listener.chatRoute Samples.parse Example.typeErrorText Example.clock Example.first
    {| Listener.body := [("messages", JStr Samples.hiArrayText)];
       Listener.files := [] |}
  = Listener.chatRoute Samples.parse Example.typeErrorText Example.clock
      Example.first
      {| Listener.body := [("messages", JArr Samples.hiMessages)];
         Listener.files := [] |}.
Proof.
  assert (Hne : Samples.hiArrayText <> "") by discriminate.
  split; [split; [exact Hne | reflexivity]|].
  exact (messages_text_or_array Samples.parse Example.typeErrorText Example.clock
           Example.first Samples.hiArrayText Samples.hiMessages [] [] Hne eq_refl).
Defined.

Lemma null_messages_fail_witness :
  (assoc "messages" [("messages", JStr "null")] = Some (JStr "null") /\
   "null" <> "" /\
   Samples.parse "null" = Ok JNull) /\
  Listener.chatRoute Samples.parse Example.typeErrorText Example.clock Example.first
    {| Listener.body := [("messages", JStr "null")]; Listener.files := [] |}
  = Listener.json 500
      (JObj [("error", JStr "Internal server error");
             ("message", JStr (Example.typeErrorText (ReadOfNull "length")))]).
Proof.
  assert (Hne : "null" <> "") by discriminate.
  split; [repeat split; (reflexivity || exact Hne)|].
  exact (null_messages_fail Samples.parse Example.typeErrorText Example.clock
           Example.first
           {| Listener.body := [("messages", JStr "null")]; Listener.files := [] |}
           "null" eq_refl Hne eq_refl).
Defined.

Lemma listener_without_messages_witness :
  truthy (assoc "messages" [("stream", JStr "true")]) = false /\
  Listener.chatRoute Samples.parse Example.typeErrorText Example.clock Example.first
    {| Listener.body := [("stream", JStr "true")]; Listener.files := [Example.report] |}
  = Listener.deliver Example.clock (Listener.getRandomResponse Example.first) true.
Proof.
  split; [reflexivity|].
  exact (listener_without_messages Samples.parse Example.typeErrorText Example.clock
           Example.first
           {| Listener.body := [("stream", JStr "true")];
              Listener.files := [Example.report] |} eq_refl).
Defined.

(** C9 as it is worded fails: the address of another endpoint in which
    [/api/chat] occurs is intercepted, and answered with a chat reply
    where the network answers otherwise. *)
Lemma other_endpoint_is_intercepted :
  "/api/chatter/rooms" <> "/api/chat" /\
  Interception.isApiCall Samples.roomsUrl = true /\
  status (Interception.fetch parse network first Samples.roomsUrl
            (Some (postJson hiText))) = 200 /\
  status (network Samples.roomsUrl (postJson hiText)) = 404 /\
  Interception.fetch parse network first Samples.roomsUrl (Some (postJson hiText))
  <> network Samples.roomsUrl (postJson hiText).
Proof.
  split; [discriminate|]. split; [reflexivity|]. split; [reflexivity|].
  split; [reflexivity|]. vm_compute. discriminate.
Qed.

Lemma pass_through_unless_mentioned_witness :
  (forall a b, "/api/health" <> a ++ "/api/chat" ++ b) /\
  Interception.fetch parse network first Samples.healthUrl (Some (postJson hiText))
  = network Samples.healthUrl (postJson hiText).
Proof.
  assert (H : forall a b, "/api/health" <> a ++ "/api/chat" ++ b).
  { intros a b E.
    assert (Hi : includes "/api/health" "/api/chat" = true)
      by (apply includes_iff; now exists a, b).
    discriminate Hi. }
  split; [exact H|].
  exact (pass_through_unless_mentioned parse network first Samples.healthUrl
           (Some (postJson hiText)) H).
Defined.

Lemma content_record_is_one_line_witness :
  (nat_of_ascii (ascii_of_nat 13) < 32)%nat /\
  includes (JSON_stringify
              (JObj [("content", JStr ("a" ++ String (ascii_of_nat 13) nl ++ "b"))]))
           (String (ascii_of_nat 13) "") = false.
Proof.
  assert (H : (nat_of_ascii (ascii_of_nat 13) < 32)%nat) by (vm_compute; lia).
  split; [exact H|].
  exact (content_record_is_one_line _ _ H).
Defined.
